(** * A random Markov-chain generative model (src/one.py)

    Shallow embedding of the class [GenerativeModel] and of the NumPy
    operations it calls.

    Numbers.  The class is embedded twice.  The main embedding models
    NumPy's float64 values by exact rationals [Q] extended with the two
    non-finite results a division can produce ([Inf], [NaN]); it carries
    the properties that do not depend on rounding.  Module [F64] embeds
    the sampling step again with IEEE binary64 arithmetic (Rocq's primitive
    floats), as NumPy computes it, for the property that does.

    Arrays.  NumPy refuses a shape with a negative dimension or with more
    bytes than its index type can count; both are modelled.  A machine that
    lacks the memory for an array NumPy accepts is not.

    Randomness.  [np.random] is a process-wide generator.  Its output is
    the sequence [U 0, U 1, ...] of uniform variates it will hand out, and
    its state is the position of the next one.  Every function that draws
    takes the position and returns the new one. *)

From Stdlib Require Import QArith Qabs ZArith List Bool Arith Lia Lqa.
From Stdlib Require Import Floats.PrimFloat.
Import ListNotations.

Close Scope Q_scope.
Close Scope Z_scope.
Open Scope nat_scope.

(** ** Values *)

(** A float64: a finite number, an infinity (with its sign) or not-a-number. *)
Inductive float64 : Type :=
| Fin (q : Q)
| Inf (negative : bool)
| NaN.

(** The arrays the class receives and returns: a 0-dimensional array (what
    NumPy makes of a plain Python number) or a 1-dimensional one. *)
Inductive ndarray : Type :=
| Scalar (x : Q)
| Vector (v : list Q).

(** The exceptions NumPy raises on the paths of this program. *)
Inductive exn : Type :=
| ValueError
| IndexError.

Inductive outcome (A : Type) : Type :=
| Return (a : A)
| Raise (e : exn).

Arguments Return {A} a.
Arguments Raise {A} e.

(** ** State and exceptions

    A computation reads and writes a state [S] and either returns or
    raises; the state it leaves is kept in both cases (a draw made before
    an exception stays consumed). *)

Definition St (S A : Type) : Type := S -> outcome A * S.

Definition ret {S A : Type} (a : A) : St S A := fun s => (Return a, s).

Definition raise {S A : Type} (e : exn) : St S A := fun s => (Raise e, s).

Definition bind {S A B : Type} (m : St S A) (k : A -> St S B) : St S B :=
  fun s =>
    match m s with
    | (Return a, s') => k a s'
    | (Raise e, s') => (Raise e, s')
    end.

Definition lift_outcome {S A : Type} (o : outcome A) : St S A :=
  fun s => (o, s).

Declare Scope st_scope.
Delimit Scope st_scope with st.
Notation "x <- m ;; k" := (bind m (fun x => k))
  (at level 61, m at next level, right associativity) : st_scope.
Open Scope st_scope.

(** ** NumPy, the pure part *)

Module Np.

(** [np.sum] of a 1-d array. *)
Definition sum (l : list Q) : Q := fold_right Qplus 0%Q l.

(** [x / y] on float64 with finite operands: IEEE division, where a zero
    divisor gives [nan] for [0/0] and a signed infinity otherwise. *)
Definition truediv (x y : Q) : float64 :=
  if Qeq_bool y 0 then
    if Qeq_bool x 0 then NaN else Inf (negb (Qle_bool 0 x))
  else Fin (x / y).

(** [np.sum(matrix, axis=1, keepdims=True)]: one sum per row. *)
Definition sum_axis1 (matrix : list (list Q)) : list Q := map sum matrix.

(** [matrix / sums] with [sums] a column: row [i] is divided by [sums[i]]. *)
Definition divide_rows (matrix : list (list Q)) (sums : list Q)
  : list (list float64) :=
  map (fun rs => map (fun x => truediv x (snd rs)) (fst rs))
      (combine matrix sums).

(** The one-hot vector of length [n] with its 1 at index [i]. *)
Definition one_hot (n i : nat) : list Q :=
  map (fun j => if Nat.eqb j i then 1%Q else 0%Q) (seq 0 n).

(** The largest value of NumPy's index type [npy_intp] on a 64-bit
    platform. *)
Definition NPY_MAX_INTP : Z := 9223372036854775807.

(** Whether NumPy refuses (with a [ValueError]) to create a float64 array of
    shape [dims]: a dimension is negative, or the size in bytes, 8 times
    the product of the dimensions that are not 0, exceeds [NPY_MAX_INTP]. *)
Definition refused (dims : list Z) : bool :=
  existsb (fun d => d <? 0)%Z dims
  || (NPY_MAX_INTP
      <? fold_left Z.mul (filter (fun d => negb (d =? 0)%Z) dims) 8)%Z.

(** [np.eye(n)]: an [n]-by-[n] array of zeros with ones on the diagonal. *)
Definition eye (n : Z) : outcome (list (list Q)) :=
  if refused [n; n] then Raise ValueError
  else Return (map (one_hot (Z.to_nat n)) (seq 0 (Z.to_nat n))).

(** The scan behind [np.argmax] on a non-empty 1-d array: [best] is the
    largest value seen, [besti] its first index, [i] the current index. *)
Fixpoint argmax_from (best : Q) (besti i : nat) (l : list Q) : nat :=
  match l with
  | [] => besti
  | x :: t =>
      if Qle_bool x best then argmax_from best besti (S i) t
      else argmax_from x i (S i) t
  end.

(** [np.argmax(a)]: the first index of the maximum of the flattened array;
    0 for a 0-d array, an error for an empty one. *)
Definition argmax (a : ndarray) : outcome nat :=
  match a with
  | Scalar _ => Return 0
  | Vector [] => Raise ValueError
  | Vector (x :: t) => Return (argmax_from x 0 1 t)
  end.

(** [np.zeros_like(a)]. *)
Definition zeros_like (a : ndarray) : ndarray :=
  match a with
  | Scalar _ => Scalar 0
  | Vector v => Vector (map (fun _ => 0%Q) v)
  end.

(** [np.zeros(n)] with an integer [n]. *)
Definition zeros (n : Z) : outcome ndarray :=
  if refused [n] then Raise ValueError
  else Return (Vector (repeat 0%Q (Z.to_nat n))).

Fixpoint set_nth (v : list Q) (i : nat) (x : Q) : option (list Q) :=
  match v, i with
  | [], _ => None
  | _ :: t, O => Some (x :: t)
  | y :: t, S i' => option_map (cons y) (set_nth t i' x)
  end.

(** [a[i] = x] with a non-negative integer [i]: a 0-d array cannot be
    indexed, a 1-d array refuses an index past its end. *)
Definition setitem (a : ndarray) (i : nat) (x : Q) : outcome ndarray :=
  match a with
  | Scalar _ => Raise IndexError
  | Vector v =>
      match set_nth v i x with
      | Some v' => Return (Vector v')
      | None => Raise IndexError
      end
  end.

(** [m[i]] on the rows of a 2-d array, [i] a non-negative integer. *)
Definition getitem {A : Type} (m : list A) (i : nat) : outcome A :=
  match nth_error m i with
  | Some r => Return r
  | None => Raise IndexError
  end.

(** [np.cumsum], with the running total as accumulator. *)
Fixpoint cumsum_from (acc : Q) (l : list Q) : list Q :=
  match l with
  | [] => []
  | x :: t => (acc + x)%Q :: cumsum_from (acc + x)%Q t
  end.

Definition cumsum (l : list Q) : list Q := cumsum_from 0%Q l.

(** [a.searchsorted(v, side='right')] on a sorted array: the index of the
    first element greater than [v] (the length if there is none). *)
Fixpoint searchsorted_right (a : list Q) (v : Q) : nat :=
  match a with
  | [] => 0
  | x :: t => if Qle_bool x v then S (searchsorted_right t v) else 0
  end.

(** The entries of an array when all of them are finite. *)
Fixpoint finite (p : list float64) : option (list Q) :=
  match p with
  | [] => Some []
  | Fin q :: t => option_map (cons q) (finite t)
  | _ :: _ => None
  end.

(** The tolerance of [choice] on the sum of [p]: the square root of the
    float64 machine epsilon, [2^-26]. *)
Definition atol : Q := 1 # 67108864.

End Np.

(** ** NumPy, the global generator *)

Section Generator.

(** The variates the generator hands out, in order; each lies in [0,1). *)
Variable U : nat -> Q.

(** [np.random.random_sample()]: the next variate. *)
Definition random_sample : St nat Q := fun pos => (Return (U pos), S pos).

(** [np.random.uniform(size=(rows, cols))]: [rows * cols] variates, filled
    in row by row, in an array it creates first. *)
Definition uniform (rows cols : Z) : St nat (list (list Q)) :=
  fun pos =>
    if Np.refused [rows; cols] then (Raise ValueError, pos)
    else
      let r := Z.to_nat rows in
      let c := Z.to_nat cols in
      (Return (map (fun i => map (fun j => U (pos + i * c + j)) (seq 0 c))
                   (seq 0 r)),
       pos + r * c).

(** [np.random.choice(a, p=p)] with an integer [a]: after validating [a]
    and [p] (size, no nan, nothing negative, sum within [atol] of 1) it
    normalises the cumulative sums by their last entry and returns the
    insertion point of one uniform variate.  It reads [p] and writes only
    arrays of its own. *)
Definition choice (a : nat) (p : list float64) : St nat nat :=
  if Nat.eqb a 0 then raise ValueError
  else if negb (Nat.eqb (length p) a) then raise ValueError
  else
    match Np.finite p with
    | None => raise ValueError
    | Some q =>
        if existsb (fun x => negb (Qle_bool 0 x)) q then raise ValueError
        else if negb (Qle_bool (Qabs (Np.sum q - 1)) Np.atol)
        then raise ValueError
        else
          let cdf := Np.cumsum q in
          let cdf := map (fun c => (c / last cdf 0)%Q) cdf in
          uniform_samples <- random_sample ;;
          ret (Np.searchsorted_right cdf uniform_samples)
    end.

(** ** The class *)

Record GenerativeModel : Type := {
  world_size : Z;
  states : list (list Q);
  transition_matrix : list (list float64)
}.

(** What a method call can touch: the object and the global generator. *)
Record world : Type := {
  self : GenerativeModel;
  rng : nat
}.

(** Run a computation on the generator inside a method. *)
Definition with_rng {A : Type} (m : St nat A) : St world A :=
  fun w =>
    let (r, pos) := m (rng w) in
    (r, {| self := self w; rng := pos |}).

Definition get_self : St world GenerativeModel :=
  fun w => (Return (self w), w).

(** [GenerativeModel._create_transition_matrix], which reads
    [self.world_size] only. *)
Definition _create_transition_matrix (world_size : Z)
  : St nat (list (list float64)) :=
  matrix <- uniform world_size world_size ;;
  ret (Np.divide_rows matrix (Np.sum_axis1 matrix)).

(** [GenerativeModel.__init__]. *)
Definition __init__ (world_size : Z) : St nat GenerativeModel :=
  states <- lift_outcome (Np.eye world_size) ;;
  transition_matrix <- _create_transition_matrix world_size ;;
  ret {| world_size := world_size;
         states := states;
         transition_matrix := transition_matrix |}.

(** [GenerativeModel.sample_next_state]. *)
Definition sample_next_state (current_state : ndarray) : St world ndarray :=
  current_state_id <- lift_outcome (Np.argmax current_state) ;;
  me <- get_self ;;
  probabilities <-
    lift_outcome (Np.getitem (transition_matrix me) current_state_id) ;;
  next_state_id <- with_rng (choice (length probabilities) probabilities) ;;
  let next_state := Np.zeros_like current_state in
  lift_outcome (Np.setitem next_state next_state_id 1).

(** The loop of [run_simulation]: [n] iterations left. *)
Fixpoint run_simulation_loop (n : nat) (current_state : ndarray)
  (trajectory : list ndarray) : St world (list ndarray) :=
  match n with
  | O => ret trajectory
  | S n' =>
      current_state' <- sample_next_state current_state ;;
      run_simulation_loop n' current_state' (trajectory ++ [current_state'])
  end.

(** [GenerativeModel.run_simulation]; [range(num_steps)] is empty for a
    negative [num_steps]. *)
Definition run_simulation (initial_state : ndarray) (num_steps : Z)
  : St world (list ndarray) :=
  let current_state := initial_state in
  let trajectory := [current_state] in
  run_simulation_loop (Z.to_nat num_steps) current_state trajectory.

(** A method call [obj.method(...)] from module level: the object is the
    method's [self], the generator is the global one. *)
Definition call {A : Type} (obj : GenerativeModel) (m : St world A)
  : St nat A :=
  fun pos =>
    let (r, w) := m {| self := obj; rng := pos |} in
    (r, rng w).

(** The example usage that ends the file.  Its last loop prints the states
    of [trajectory] one per line, so what the script prints is the list it
    returns here. *)
Definition example_usage : St nat (list ndarray) :=
  let world_size := 6%Z in
  model <- __init__ world_size ;;
  initial_state <- lift_outcome (Np.zeros world_size) ;;
  initial_state <- lift_outcome (Np.setitem initial_state 0 1) ;;
  let num_steps := 10%Z in
  trajectory <- call model (run_simulation initial_state num_steps) ;;
  ret trajectory.

End Generator.

(** ** Predicates of the data model *)

(** A row of finite, non-negative entries that sum to 1. *)
Definition stochastic_row (p : list float64) : bool :=
  match Np.finite p with
  | Some q => forallb (Qle_bool 0) q && Qeq_bool (Np.sum q) 1
  | None => false
  end.

(** An [N]-by-[N] matrix all of whose rows are distributions. *)
Definition stochastic (N : nat) (matrix : list (list float64)) : bool :=
  Nat.eqb (length matrix) N
  && forallb (fun row => Nat.eqb (length row) N && stochastic_row row) matrix.

(** Exactly one entry equal to 1 and the rest 0. *)
Fixpoint is_one_hot (v : list Q) : bool :=
  match v with
  | [] => false
  | x :: t =>
      (Qeq_bool x 1 && forallb (fun y => Qeq_bool y 0) t)
      || (Qeq_bool x 0 && is_one_hot t)
  end.

(** The index a one-hot vector encodes: the position of its first 1. *)
Fixpoint hot_index (v : list Q) : nat :=
  match v with
  | [] => 0
  | x :: t => if Qeq_bool x 1 then 0 else S (hot_index t)
  end.

(** A valid state of a world of [N] states: a one-hot vector of length [N]. *)
Definition valid_state (N : nat) (s : ndarray) : bool :=
  match s with
  | Vector v => Nat.eqb (length v) N && is_one_hot v
  | Scalar _ => false
  end.

(** Every variate of the generator lies in [0,1). *)
Definition unit_interval (U : nat -> Q) : Prop :=
  forall n, (0 <= U n)%Q /\ (U n < 1)%Q.

(** The sum of the first [j] entries. *)
Definition prefix_sum (q : list Q) (j : nat) : Q := Np.sum (firstn j q).

(** The index [choice] returns for the finite row [q] and the variate [u]. *)
Definition pick (q : list Q) (u : Q) : nat :=
  let cdf := Np.cumsum q in
  Np.searchsorted_right (map (fun c => (c / last cdf 0)%Q) cdf) u.

(** What [sample_next_state] does once the row index [i] is known: draw from
    row [i] and mark the drawn index in a zero array shaped like [shape]. *)
Definition sample_from_row (U : nat -> Q) (i : nat) (shape : ndarray)
  : St world ndarray :=
  me <- get_self ;;
  probabilities <- lift_outcome (Np.getitem (transition_matrix me) i) ;;
  next_state_id <- with_rng (choice U (length probabilities) probabilities) ;;
  lift_outcome (Np.setitem (Np.zeros_like shape) next_state_id 1).

(** The variates [uniform] puts in row [i] of an [n]-by-[n] matrix. *)
Definition drawn_row (U : nat -> Q) (pos n i : nat) : list Q :=
  map (fun j => U (pos + i * n + j)) (seq 0 n).

(** Every row of the variates drawn for an [n]-by-[n] matrix from position
    [pos] on has an entry that is not zero. *)
Definition nonzero_rows (U : nat -> Q) (pos n : nat) : Prop :=
  forall i, i < n -> exists j, j < n /\ ~ (U (pos + i * n + j)%nat == 0)%Q.

(** ** The sampling step in float64 arithmetic *)

Module F64.

(** The tolerance of [choice] on the sum of [p]: the square root of the
    float64 machine epsilon. *)
Definition atol : float := 0x1p-26%float.

(** The loop of NumPy's [kahan_sum], a compensated sum: [sum] is the running
    total and [c] the running compensation. *)
Fixpoint kahan_loop (sum c : float) (darr : list float) : float :=
  match darr with
  | [] => sum
  | d :: rest =>
      let y := (d - c)%float in
      let t := (sum + y)%float in
      let c := ((t - sum) - y)%float in
      kahan_loop t c rest
  end.

(** [kahan_sum(p)] on a non-empty array. *)
Definition kahan_sum (darr : list float) : float :=
  match darr with
  | [] => 0%float
  | d :: rest => kahan_loop d 0%float rest
  end.

(** The checks of [choice] on [p]: its sum is not nan, no entry is
    negative, and the sum is within [atol] of 1. *)
Definition accepted (p : list float) : bool :=
  let p_sum := kahan_sum p in
  negb (is_nan p_sum)
  && negb (existsb (fun x => (x <? 0)%float) p)
  && negb (atol <? abs (p_sum - 1))%float.

(** [p.cumsum()]: each entry is the float64 sum of the entry before it and
    the next entry of [p]. *)
Fixpoint cumsum_from (acc : float) (l : list float) : list float :=
  match l with
  | [] => []
  | x :: t => (acc + x)%float :: cumsum_from (acc + x)%float t
  end.

Definition cumsum (l : list float) : list float :=
  match l with
  | [] => []
  | x :: t => x :: cumsum_from x t
  end.

(** [cdf = p.cumsum(); cdf /= cdf[-1]]. *)
Definition normalized_cumsum (p : list float) : list float :=
  let cdf := cumsum p in
  map (fun c => (c / last cdf 0)%float) cdf.

(** [a.searchsorted(v, side='right')] on a sorted array: the index of the
    first element that [v] is less than (the length if there is none). *)
Fixpoint searchsorted_right (a : list float) (v : float) : nat :=
  match a with
  | [] => 0
  | x :: t => if (v <? x)%float then 0 else S (searchsorted_right t v)
  end.

Section Generator.

(** The float64 variates the generator hands out, in order. *)
Variable U : nat -> float.

Definition random_sample : St nat float :=
  fun pos => (Return (U pos), S pos).

(** [np.random.choice(a, p=p)] with an integer [a]. *)
Definition choice (a : nat) (p : list float) : St nat nat :=
  if Nat.eqb a 0 then raise ValueError
  else if negb (Nat.eqb (length p) a) then raise ValueError
  else if negb (accepted p) then raise ValueError
  else
    let cdf := normalized_cumsum p in
    uniform_samples <- random_sample ;;
    ret (searchsorted_right cdf uniform_samples).

Record GenerativeModel : Type := {
  world_size : Z;
  states : list (list Q);
  transition_matrix : list (list float)
}.

Record world : Type := {
  self : GenerativeModel;
  rng : nat
}.

Definition with_rng {A : Type} (m : St nat A) : St world A :=
  fun w =>
    let (r, pos) := m (rng w) in
    (r, {| self := self w; rng := pos |}).

Definition get_self : St world GenerativeModel :=
  fun w => (Return (self w), w).

(** [GenerativeModel.sample_next_state]; the entries of a state are 0 and
    1, which both arithmetics represent exactly. *)
Definition sample_next_state (current_state : ndarray) : St world ndarray :=
  current_state_id <- lift_outcome (Np.argmax current_state) ;;
  me <- get_self ;;
  probabilities <-
    lift_outcome (Np.getitem (transition_matrix me) current_state_id) ;;
  next_state_id <- with_rng (choice (length probabilities) probabilities) ;;
  let next_state := Np.zeros_like current_state in
  lift_outcome (Np.setitem next_state next_state_id 1).

End Generator.

End F64.

(** ** Concrete generators and models *)

(** A generator that cycles through 0, 1/4, 1/2, 3/4. *)
Definition quarters (n : nat) : Q := Z.of_nat (n mod 4) # 4.

(** A generator stuck on 0. *)
Definition stuck_at_zero (n : nat) : Q := 0%Q.

(** A three-state model: from each state the chain stays or moves on to the
    next state (cyclically), with probability 1/2 each. *)
Definition chain3 : GenerativeModel :=
  {| world_size := 3;
     states := [[1; 0; 0]; [0; 1; 0]; [0; 0; 1]]%Q;
     transition_matrix :=
       [[Fin (1 # 2); Fin (1 # 2); Fin 0];
        [Fin 0; Fin (1 # 2); Fin (1 # 2)];
        [Fin (1 # 2); Fin 0; Fin (1 # 2)]] |}.

(** A generator that differs from [quarters] on its first two variates. *)
Definition late_quarters (n : nat) : Q :=
  if Nat.ltb n 2 then (3 # 4)%Q else quarters n.

(** The model that construction returns for two states when the generator
    is [quarters] at position 0. *)
Definition built2 : GenerativeModel :=
  match fst (__init__ quarters 2 0) with
  | Return m => m
  | Raise _ => chain3
  end.

(** A three-state model whose state 0 is absorbing. *)
Definition sink3 : GenerativeModel :=
  {| world_size := 3;
     states := [[1; 0; 0]; [0; 1; 0]; [0; 0; 1]]%Q;
     transition_matrix :=
       [[Fin 1; Fin 0; Fin 0];
        [Fin (1 # 2); Fin (1 # 2); Fin 0];
        [Fin 0; Fin (1 # 2); Fin (1 # 2)]] |}.

(** A generator whose variates are all 1/2. *)
Definition halves (n : nat) : Q := 1 # 2.

(** A generator that hands out 0 for its first four variates. *)
Definition zero_start (n : nat) : Q :=
  if Nat.ltb n 4 then 0%Q else quarters n.



(** * Lemmas *)

(** ** One-hot vectors *)

Lemma one_hot_length (n i : nat) : length (Np.one_hot n i) = n.
Proof. unfold Np.one_hot. now rewrite length_map, length_seq. Qed.

Lemma zeros_off_index (i a n : nat) :
  i < a \/ a + n <= i ->
  forallb (fun y => Qeq_bool y 0)
    (map (fun j => if Nat.eqb j i then 1%Q else 0%Q) (seq a n)) = true.
Proof.
  revert a. induction n as [|n IH]; intros a H; simpl; [reflexivity|].
  destruct (Nat.eqb_spec a i) as [->|_]; [lia|].
  simpl. apply IH. lia.
Qed.

Lemma one_hot_at_index (i a n : nat) :
  a <= i < a + n ->
  is_one_hot (map (fun j => if Nat.eqb j i then 1%Q else 0%Q) (seq a n)) = true
  /\ hot_index (map (fun j => if Nat.eqb j i then 1%Q else 0%Q) (seq a n))
     = i - a.
Proof.
  revert a. induction n as [|n IH]; intros a H; [lia|].
  simpl. destruct (Nat.eqb_spec a i) as [->|Hne].
  - rewrite zeros_off_index by lia. simpl. split; [reflexivity|lia].
  - destruct (IH (S a)) as [IH1 IH2]; [lia|].
    rewrite IH1, IH2. split; [reflexivity|].
    change (Qeq_bool 0 1) with false. cbv iota. lia.
Qed.

Lemma one_hot_valid (n i : nat) :
  i < n -> valid_state n (Vector (Np.one_hot n i)) = true.
Proof.
  intros H. simpl. rewrite one_hot_length, Nat.eqb_refl. simpl.
  apply one_hot_at_index. lia.
Qed.

Lemma one_hot_index (n i : nat) : i < n -> hot_index (Np.one_hot n i) = i.
Proof.
  intros H. unfold Np.one_hot.
  destruct (@one_hot_at_index i 0 n) as [_ ->]; lia.
Qed.

(** ** [argmax] decodes a one-hot vector *)

Lemma argmax_from_zeros (best : Q) (besti i : nat) (t : list Q) :
  (0 <= best)%Q ->
  forallb (fun y => Qeq_bool y 0) t = true ->
  Np.argmax_from best besti i t = besti.
Proof.
  intros Hb. revert i. induction t as [|y t IH]; intros i H; simpl in *.
  - reflexivity.
  - apply andb_true_iff in H as [Hy Ht]. apply Qeq_bool_iff in Hy.
    assert (Hle : Qle_bool y best = true) by (apply Qle_bool_iff; lra).
    rewrite Hle. now apply IH.
Qed.

Lemma argmax_from_one_hot (best : Q) (besti i : nat) (t : list Q) :
  (best == 0)%Q ->
  is_one_hot t = true ->
  Np.argmax_from best besti i t = i + hot_index t.
Proof.
  intros Hb. revert i. induction t as [|y t IH]; intros i H; simpl in *.
  - discriminate.
  - apply orb_true_iff in H as [H|H]; apply andb_true_iff in H as [Hy Ht].
    + rewrite Hy. apply Qeq_bool_iff in Hy.
      assert (Hle : Qle_bool y best = false).
      { destruct (Qle_bool y best) eqn:E; [|reflexivity].
        apply Qle_bool_iff in E. lra. }
      rewrite Hle, argmax_from_zeros; [lia|lra|assumption].
    + apply Qeq_bool_iff in Hy.
      assert (Hle : Qle_bool y best = true) by (apply Qle_bool_iff; lra).
      assert (Hne : Qeq_bool y 1 = false).
      { destruct (Qeq_bool y 1) eqn:E; [|reflexivity].
        apply Qeq_bool_iff in E. lra. }
      rewrite Hle, Hne, IH by assumption. lia.
Qed.

Lemma hot_index_lt (v : list Q) : is_one_hot v = true -> hot_index v < length v.
Proof.
  induction v as [|x t IH]; simpl; [discriminate|].
  intros H. destruct (Qeq_bool x 1); [lia|].
  simpl in H. apply andb_true_iff in H as [_ H]. apply IH in H. lia.
Qed.

Lemma argmax_one_hot (v : list Q) :
  is_one_hot v = true -> Np.argmax (Vector v) = Return (hot_index v).
Proof.
  destruct v as [|x t]; simpl; [discriminate|].
  intros H. apply orb_true_iff in H as [H|H]; apply andb_true_iff in H as [Hx Ht].
  - rewrite Hx. apply Qeq_bool_iff in Hx.
    rewrite argmax_from_zeros; [reflexivity|lra|assumption].
  - apply Qeq_bool_iff in Hx.
    assert (Hne : Qeq_bool x 1 = false).
    { destruct (Qeq_bool x 1) eqn:E; [|reflexivity].
      apply Qeq_bool_iff in E. lra. }
    rewrite Hne, argmax_from_one_hot; [reflexivity|assumption|assumption].
Qed.

(** ** Writing a 1 into a zero array *)

Lemma zeros_past_index (t : list Q) (a c : nat) :
  a < c ->
  map (fun k => if Nat.eqb k a then 1%Q else 0%Q) (seq c (length t))
  = map (fun _ => 0%Q) t.
Proof.
  revert c. induction t as [|y t IH]; intros c H; simpl; [reflexivity|].
  destruct (Nat.eqb_spec c a); [lia|]. f_equal. apply IH. lia.
Qed.

Lemma set_nth_zeros (v : list Q) (a j : nat) :
  j < length v ->
  Np.set_nth (map (fun _ => 0%Q) v) j 1
  = Some (map (fun k => if Nat.eqb k (a + j) then 1%Q else 0%Q)
              (seq a (length v))).
Proof.
  revert a j. induction v as [|x t IH]; intros a j H; simpl in *; [lia|].
  destruct j as [|j].
  - rewrite Nat.add_0_r, Nat.eqb_refl, zeros_past_index by lia. reflexivity.
  - rewrite (IH (S a) j) by lia. simpl.
    destruct (Nat.eqb_spec a (a + S j)); [lia|].
    now replace (a + S j) with (S (a + j)) by lia.
Qed.


Lemma setitem_zeros (v : list Q) (j : nat) :
  j < length v ->
  Np.setitem (Np.zeros_like (Vector v)) j 1
  = Return (Vector (Np.one_hot (length v) j)).
Proof.
  intros H. simpl. now rewrite (set_nth_zeros v 0 j H).
Qed.

Lemma setitem_length (a r : ndarray) (j : nat) (x : Q) :
  Np.setitem (Np.zeros_like a) j x = Return r ->
  exists v, a = Vector v /\ j < length v
            /\ Np.setitem (Np.zeros_like a) j 1
               = Return (Vector (Np.one_hot (length v) j)).
Proof.
  destruct a as [y|v]; simpl; [discriminate|].
  intros H. exists v. split; [reflexivity|].
  assert (Hj : j < length v).
  { destruct (Np.set_nth (map (fun _ => 0%Q) v) j x) as [v'|] eqn:E;
      [|discriminate].
    clear H. revert j v' E. induction v as [|z t IH]; intros j v' E;
      simpl in *; [discriminate|].
    destruct j as [|j]; [lia|].
    destruct (Np.set_nth (map (fun _ => 0%Q) t) j x) eqn:E'; [|discriminate].
    apply IH in E'. lia. }
  split; [assumption|]. now rewrite (set_nth_zeros v 0 j Hj).
Qed.

(** ** Finite rows and their sums *)

Lemma finite_map_Fin (q : list Q) : Np.finite (map Fin q) = Some q.
Proof. induction q as [|x t IH]; simpl; [|rewrite IH]; reflexivity. Qed.

Lemma finite_inv (p : list float64) (q : list Q) :
  Np.finite p = Some q -> p = map Fin q.
Proof.
  revert q. induction p as [|x t IH]; intros q H; simpl in H.
  - now inversion H.
  - destruct x as [y| |]; try discriminate.
    destruct (Np.finite t) as [q'|]; [|discriminate].
    inversion H. simpl. now rewrite (IH q').
Qed.

Lemma stochastic_row_inv (p : list float64) :
  stochastic_row p = true ->
  exists q, p = map Fin q
            /\ forallb (Qle_bool 0) q = true /\ (Np.sum q == 1)%Q.
Proof.
  unfold stochastic_row. destruct (Np.finite p) as [q|] eqn:E; [|discriminate].
  intros H. apply andb_true_iff in H as [H1 H2].
  exists q. split; [now apply finite_inv|]. split; [assumption|].
  now apply Qeq_bool_iff.
Qed.

Lemma sum_nonneg (q : list Q) :
  forallb (Qle_bool 0) q = true -> (0 <= Np.sum q)%Q.
Proof.
  unfold Np.sum. induction q as [|x t IH]; simpl; intros H; [lra|].
  apply andb_true_iff in H as [Hx Ht]. apply Qle_bool_iff in Hx.
  apply IH in Ht. lra.
Qed.

Lemma firstn_nonneg (q : list Q) (j : nat) :
  forallb (Qle_bool 0) q = true -> forallb (Qle_bool 0) (firstn j q) = true.
Proof.
  revert j. induction q as [|x t IH]; intros [|j] H; simpl in *; try reflexivity.
  apply andb_true_iff in H as [Hx Ht]. now rewrite Hx, IH.
Qed.

Lemma prefix_sum_nonneg (q : list Q) (j : nat) :
  forallb (Qle_bool 0) q = true -> (0 <= prefix_sum q j)%Q.
Proof. intros H. apply sum_nonneg. now apply firstn_nonneg. Qed.

Lemma prefix_sum_cons (x : Q) (t : list Q) (j : nat) :
  prefix_sum (x :: t) (S j) = (x + prefix_sum t j)%Q.
Proof. reflexivity. Qed.

Lemma prefix_sum_all (q : list Q) : prefix_sum q (length q) = Np.sum q.
Proof. unfold prefix_sum. now rewrite firstn_all. Qed.

(** The width of the [j]-th step of the cumulative sums is the [j]-th entry. *)
Lemma prefix_sum_step (q : list Q) (j : nat) (x : Q) :
  nth_error q j = Some x ->
  (prefix_sum q (S j) - prefix_sum q j == x)%Q.
Proof.
  revert j. induction q as [|y t IH]; intros [|j] H; simpl in H;
    try discriminate.
  - inversion H. subst. unfold prefix_sum. simpl. lra.
  - rewrite !prefix_sum_cons. specialize (IH j H). lra.
Qed.

Lemma prefix_sum_le_sum (q : list Q) (j : nat) :
  forallb (Qle_bool 0) q = true -> (prefix_sum q j <= Np.sum q)%Q.
Proof.
  revert j. induction q as [|x t IH]; intros [|j] H.
  - unfold prefix_sum, Np.sum. simpl. lra.
  - unfold prefix_sum, Np.sum. simpl. lra.
  - pose proof (sum_nonneg _ H). unfold prefix_sum at 1. simpl firstn.
    unfold Np.sum at 1. simpl. assumption.
  - simpl in H. apply andb_true_iff in H as [Hx Ht]. specialize (IH j Ht).
    rewrite prefix_sum_cons. unfold Np.sum in *. simpl. lra.
Qed.

(** ** The cumulative sums and the search in them *)

Lemma cumsum_from_length (acc : Q) (q : list Q) :
  length (Np.cumsum_from acc q) = length q.
Proof.
  revert acc. induction q as [|x t IH]; intros acc; simpl; [|rewrite IH];
    reflexivity.
Qed.

Lemma cumsum_from_last (acc : Q) (q : list Q) :
  q <> [] -> (last (Np.cumsum_from acc q) 0 == acc + Np.sum q)%Q.
Proof.
  revert acc. induction q as [|x t IH]; intros acc H; [congruence|].
  destruct t as [|y t'].
  - simpl. lra.
  - change (last (Np.cumsum_from acc (x :: y :: t')) 0%Q)
      with (last (Np.cumsum_from (acc + x) (y :: t')) 0%Q).
    rewrite IH by discriminate. simpl. lra.
Qed.

Lemma last_map_nonempty {A B : Type} (f : A -> B) (l : list A) (d : A) (e : B) :
  l <> [] -> last (map f l) e = f (last l d).
Proof.
  induction l as [|x t IH]; intros H; [congruence|].
  destruct t as [|y t']; [reflexivity|].
  change (last (map f (y :: t')) e = f (last (y :: t') d)).
  apply IH. discriminate.
Qed.

Lemma searchsorted_right_lt (l : list Q) (u : Q) :
  l <> [] -> (u < last l 0)%Q -> Np.searchsorted_right l u < length l.
Proof.
  induction l as [|x t IH]; intros Hne H; [congruence|].
  simpl Np.searchsorted_right. destruct (Qle_bool x u) eqn:E; simpl length;
    [|lia].
  apply Qle_bool_iff in E. destruct t as [|y t'].
  - simpl in H. lra.
  - apply -> Nat.succ_lt_mono. apply IH; [discriminate|exact H].
Qed.

(** With a total of 1 the search lands on [j] exactly when the variate lies
    between the [j]-th and the [j+1]-th cumulative sum. *)
Lemma searchsorted_cumsum (q : list Q) (acc T u : Q) (j : nat) :
  (T == 1)%Q ->
  forallb (Qle_bool 0) q = true ->
  (acc <= u)%Q ->
  j < length q ->
  Np.searchsorted_right (map (fun c => (c / T)%Q) (Np.cumsum_from acc q)) u = j
  <-> (acc + prefix_sum q j <= u)%Q /\ (u < acc + prefix_sum q (S j))%Q.
Proof.
  intros HT. revert acc j. induction q as [|x t IH]; intros acc j Hq Ha Hj;
    simpl in Hj; [lia|].
  simpl in Hq. apply andb_true_iff in Hq as [Hx Ht]. apply Qle_bool_iff in Hx.
  simpl Np.cumsum_from. simpl map. simpl Np.searchsorted_right.
  assert (Hdiv : ((acc + x) / T == acc + x)%Q) by (rewrite HT; field).
  destruct (Qle_bool ((acc + x) / T) u) eqn:E.
  - apply Qle_bool_iff in E. rewrite Hdiv in E.
    destruct j as [|j].
    + unfold prefix_sum at 2. simpl. split; [discriminate|]. lra.
    + rewrite !prefix_sum_cons. split.
      * intros H. injection H as H.
        apply (IH (acc + x)%Q j Ht E) in H; [lra|lia].
      * intros H. f_equal. apply (IH (acc + x)%Q j Ht E); [lia|lra].
  - assert (E' : ~ ((acc + x) / T <= u)%Q).
    { intros C. apply Qle_bool_iff in C. congruence. }
    rewrite Hdiv in E'.
    destruct j as [|j].
    + unfold prefix_sum. simpl. split; [intros _; lra|reflexivity].
    + rewrite prefix_sum_cons. split; [discriminate|].
      pose proof (@prefix_sum_nonneg t j Ht). lra.
Qed.

(** ** [choice] on a distribution *)

Lemma choice_distribution (U : nat -> Q) (q : list Q) (pos : nat) :
  q <> [] ->
  forallb (Qle_bool 0) q = true ->
  (Np.sum q == 1)%Q ->
  choice U (length q) (map Fin q) pos = (Return (pick q (U pos)), S pos).
Proof.
  intros Hne Hq Hs. unfold choice.
  destruct (Nat.eqb_spec (length q) 0) as [E|_].
  { destruct q; [congruence|discriminate]. }
  rewrite length_map, Nat.eqb_refl, finite_map_Fin. simpl negb.
  assert (Hneg : existsb (fun x => negb (Qle_bool 0 x)) q = false).
  { clear -Hq. induction q as [|x t IH]; simpl in *; [reflexivity|].
    apply andb_true_iff in Hq as [Hx Ht]. now rewrite Hx, IH. }
  assert (Htol : Qle_bool (Qabs (Np.sum q - 1)) Np.atol = true).
  { apply Qle_bool_iff.
    assert (H0 : (Np.sum q - 1 == 0)%Q) by lra.
    rewrite H0. unfold Np.atol. simpl. discriminate. }
  rewrite Hneg, Htol. reflexivity.
Qed.

Lemma pick_lt (q : list Q) (u : Q) :
  q <> [] ->
  (Np.sum q == 1)%Q ->
  (u < 1)%Q ->
  pick q u < length q.
Proof.
  intros Hne Hs Hu. unfold pick.
  assert (HT : (last (Np.cumsum q) 0 == 1)%Q).
  { unfold Np.cumsum. rewrite cumsum_from_last by assumption. lra. }
  assert (Hc : Np.cumsum q <> []).
  { unfold Np.cumsum. destruct q; [congruence|discriminate]. }
  rewrite <- (cumsum_from_length 0 q).
  change (Np.cumsum_from 0 q) with (Np.cumsum q).
  rewrite <- (length_map (fun c => (c / last (Np.cumsum q) 0)%Q)).
  apply searchsorted_right_lt.
  - destruct (Np.cumsum q); [congruence|discriminate].
  - rewrite (@last_map_nonempty Q Q (fun c => (c / last (Np.cumsum q) 0)%Q)
               (Np.cumsum q) 0%Q 0%Q Hc).
    rewrite HT. change (1 / 1)%Q with 1%Q. exact Hu.
Qed.

(** The event "index [j] is drawn" is the event "the variate falls in the
    [j]-th step of the cumulative sums". *)
Lemma pick_interval (q : list Q) (u : Q) (j : nat) :
  q <> [] ->
  forallb (Qle_bool 0) q = true ->
  (Np.sum q == 1)%Q ->
  (0 <= u)%Q ->
  j < length q ->
  pick q u = j <-> (prefix_sum q j <= u)%Q /\ (u < prefix_sum q (S j))%Q.
Proof.
  intros Hne Hq Hs Hu Hj. unfold pick.
  assert (HT : (last (Np.cumsum q) 0 == 1)%Q).
  { unfold Np.cumsum. rewrite cumsum_from_last by assumption. lra. }
  unfold Np.cumsum at 2.
  rewrite (@searchsorted_cumsum q 0%Q (last (Np.cumsum q) 0%Q) u j HT Hq Hu Hj).
  split; intros [H1 H2]; split; lra.
Qed.

(** ** One step of the chain *)

Lemma world_eta (w : world) : {| self := self w; rng := rng w |} = w.
Proof. now destruct w. Qed.

Lemma sample_next_state_unfold (U : nat -> Q) (s : ndarray) (w : world) :
  sample_next_state U s w
  = match Np.argmax s with
    | Return i => sample_from_row U i s w
    | Raise e => (Raise e, w)
    end.
Proof.
  unfold sample_next_state, sample_from_row, bind, lift_outcome.
  now destruct (Np.argmax s).
Qed.

(** [choice] raises before drawing or returns after exactly one draw. *)
Lemma choice_cases (U : nat -> Q) (a : nat) (p : list float64) (pos : nat) :
  choice U a p pos = (Raise ValueError, pos)
  \/ exists j, choice U a p pos = (Return j, S pos).
Proof.
  unfold choice.
  destruct (Nat.eqb a 0); [now left|].
  destruct (negb (Nat.eqb (length p) a)); [now left|].
  destruct (Np.finite p) as [q|]; [|now left].
  destruct (existsb _ q); [now left|].
  destruct (negb _); [now left|].
  right. eexists. reflexivity.
Qed.

(** [choice] looks at no variate but the next one. *)
Lemma choice_ext (U U' : nat -> Q) (a : nat) (p : list float64) (pos : nat) :
  U pos = U' pos -> choice U a p pos = choice U' a p pos.
Proof.
  intros H. unfold choice.
  destruct (Nat.eqb a 0); [reflexivity|].
  destruct (negb (Nat.eqb (length p) a)); [reflexivity|].
  destruct (Np.finite p) as [q|]; [|reflexivity].
  destruct (existsb _ q); [reflexivity|].
  destruct (negb _); [reflexivity|].
  unfold bind, random_sample, ret. now rewrite H.
Qed.

(** A step leaves the object alone; it draws at most one variate, and
    exactly one when it returns. *)
Lemma sample_from_row_frame (U : nat -> Q) (i : nat) (s : ndarray) (w : world) :
  self (snd (sample_from_row U i s w)) = self w
  /\ (rng (snd (sample_from_row U i s w)) = rng w
      \/ rng (snd (sample_from_row U i s w)) = S (rng w))
  /\ forall r, fst (sample_from_row U i s w) = Return r ->
               rng (snd (sample_from_row U i s w)) = S (rng w).
Proof.
  unfold sample_from_row, bind, get_self, lift_outcome, with_rng.
  destruct (Np.getitem (transition_matrix (self w)) i) as [p|e]; simpl.
  2:{ repeat split; auto. discriminate. }
  destruct (choice_cases U (length p) p (rng w)) as [E|[j E]]; rewrite E.
  - simpl. repeat split; auto. discriminate.
  - destruct (Np.setitem (Np.zeros_like s) j 1); simpl; repeat split; auto.
Qed.

Lemma sample_next_state_frame (U : nat -> Q) (s : ndarray) (w : world) :
  self (snd (sample_next_state U s w)) = self w
  /\ (rng (snd (sample_next_state U s w)) = rng w
      \/ rng (snd (sample_next_state U s w)) = S (rng w))
  /\ forall r, fst (sample_next_state U s w) = Return r ->
               rng (snd (sample_next_state U s w)) = S (rng w).
Proof.
  rewrite sample_next_state_unfold. destruct (Np.argmax s) as [i|e].
  - apply sample_from_row_frame.
  - simpl. repeat split; auto. discriminate.
Qed.

Lemma sample_next_state_return (U : nat -> Q) (s r : ndarray) (w w' : world) :
  sample_next_state U s w = (Return r, w') ->
  w' = {| self := self w; rng := S (rng w) |}.
Proof.
  intros H. destruct (sample_next_state_frame U s w) as (Hs & _ & Hr).
  rewrite H in Hs, Hr. simpl in Hs, Hr.
  specialize (Hr r eq_refl). destruct w'. simpl in *. now subst.
Qed.

Lemma sample_next_state_ext (U U' : nat -> Q) (s : ndarray) (w : world) :
  U (rng w) = U' (rng w) ->
  sample_next_state U s w = sample_next_state U' s w.
Proof.
  intros H. rewrite !sample_next_state_unfold.
  destruct (Np.argmax s) as [i|e]; [|reflexivity].
  unfold sample_from_row, bind, get_self, lift_outcome, with_rng.
  destruct (Np.getitem (transition_matrix (self w)) i) as [p|e];
    [|reflexivity].
  now rewrite (@choice_ext U U' (length p) p (rng w) H).
Qed.

(** Drawing from a row that is a distribution, into an array long enough. *)
Lemma sample_from_row_distribution (U : nat -> Q) (m : GenerativeModel)
  (pos i : nat) (v q : list Q) :
  nth_error (transition_matrix m) i = Some (map Fin q) ->
  q <> [] ->
  forallb (Qle_bool 0) q = true ->
  (Np.sum q == 1)%Q ->
  (U pos < 1)%Q ->
  length q <= length v ->
  sample_from_row U i (Vector v) {| self := m; rng := pos |}
  = (Return (Vector (Np.one_hot (length v) (pick q (U pos)))),
     {| self := m; rng := S pos |}).
Proof.
  intros Hrow Hne Hq Hs Hu Hlen.
  unfold sample_from_row, bind, get_self, lift_outcome, with_rng, Np.getitem.
  simpl self. simpl rng. rewrite Hrow, length_map.
  rewrite (@choice_distribution U q pos Hne Hq Hs).
  pose proof (@pick_lt q (U pos) Hne Hs Hu) as Hj.
  rewrite setitem_zeros by lia. reflexivity.
Qed.

Lemma stochastic_row_at (N : nat) (matrix : list (list float64)) (i : nat) :
  stochastic N matrix = true ->
  i < N ->
  exists q, nth_error matrix i = Some (map Fin q)
            /\ length q = N
            /\ forallb (Qle_bool 0) q = true /\ (Np.sum q == 1)%Q.
Proof.
  unfold stochastic. intros H Hi. apply andb_true_iff in H as [Hl Hr].
  apply Nat.eqb_eq in Hl.
  destruct (nth_error matrix i) as [row|] eqn:E.
  2:{ apply nth_error_None in E. lia. }
  rewrite forallb_forall in Hr. specialize (Hr row (nth_error_In _ _ E)).
  apply andb_true_iff in Hr as [Hn Hrow]. apply Nat.eqb_eq in Hn.
  destruct (stochastic_row_inv _ Hrow) as (q & -> & Hq & Hs).
  exists q. rewrite length_map in Hn. auto.
Qed.

(** From a valid state of a well-formed model a step returns the one-hot
    vector of the index picked in the row of the current state. *)
Lemma sample_next_state_valid (U : nat -> Q) (N : nat) (m : GenerativeModel)
  (pos : nat) (v : list Q) :
  stochastic N (transition_matrix m) = true ->
  valid_state N (Vector v) = true ->
  (U pos < 1)%Q ->
  exists q,
    nth_error (transition_matrix m) (hot_index v) = Some (map Fin q)
    /\ length q = N
    /\ forallb (Qle_bool 0) q = true /\ (Np.sum q == 1)%Q
    /\ pick q (U pos) < N
    /\ sample_next_state U (Vector v) {| self := m; rng := pos |}
       = (Return (Vector (Np.one_hot N (pick q (U pos)))),
          {| self := m; rng := S pos |}).
Proof.
  intros Hm Hv Hu. simpl in Hv. apply andb_true_iff in Hv as [Hl Hv].
  apply Nat.eqb_eq in Hl.
  pose proof (hot_index_lt _ Hv) as Hi. rewrite Hl in Hi.
  destruct (stochastic_row_at _ _ _ Hm Hi) as (q & Hrow & Hlq & Hq & Hs).
  assert (Hne : q <> []) by (destruct q; simpl in *; [lia|discriminate]).
  exists q. repeat (split; [assumption|]).
  split; [rewrite <- Hlq; now apply pick_lt|].
  rewrite sample_next_state_unfold, (argmax_one_hot _ Hv).
  rewrite (@sample_from_row_distribution U m pos (hot_index v) v q);
    auto; [now rewrite Hl|lia].
Qed.

(** ** The rollout *)

(** A rollout that returns has appended one state per iteration, each the
    result of a step from the one before it, and has drawn one variate per
    iteration. *)
Lemma run_simulation_loop_return (U : nat -> Q) (n : nat) :
  forall (cs : ndarray) (traj r : list ndarray) (w w' : world),
    run_simulation_loop U n cs traj w = (Return r, w') ->
    exists tail,
      r = traj ++ tail
      /\ length tail = n
      /\ w' = {| self := self w; rng := rng w + n |}
      /\ forall i x y,
           nth_error (cs :: tail) i = Some x ->
           nth_error tail i = Some y ->
           sample_next_state U x {| self := self w; rng := rng w + i |}
           = (Return y, {| self := self w; rng := rng w + S i |}).
Proof.
  induction n as [|n IH]; intros cs traj r w w' H; simpl in H.
  - unfold ret in H. inversion H. subst. exists []. rewrite app_nil_r.
    rewrite Nat.add_0_r, world_eta. repeat split; auto.
    intros i x y _ Hy. destruct i; discriminate.
  - unfold bind in H.
    destruct (sample_next_state U cs w) as [[cs'|e] w1] eqn:E;
      [|discriminate].
    pose proof (sample_next_state_return U cs cs' w w1 E) as Hw1.
    destruct (IH _ _ _ _ _ H) as (tail & Hr & Hl & Hw' & Hstep).
    exists (cs' :: tail). subst w1. simpl self in *. simpl rng in *.
    split; [now rewrite Hr, <- app_assoc|].
    split; [simpl; now rewrite Hl|].
    split; [rewrite Hw'; f_equal; lia|].
    intros [|i] x y Hx Hy; simpl in Hx, Hy.
    + inversion Hx. inversion Hy. subst.
      rewrite Nat.add_0_r, world_eta, E. do 2 f_equal. lia.
    + specialize (Hstep i x y Hx Hy).
      replace (rng w + S i) with (S (rng w) + i) by lia.
      replace (rng w + S (S i)) with (S (rng w) + S i) by lia.
      exact Hstep.
Qed.

(** From a valid state of a well-formed model the rollout returns, and every
    state it appends is valid. *)
Lemma run_simulation_loop_valid (U : nat -> Q) (N : nat) (m : GenerativeModel) :
  stochastic N (transition_matrix m) = true ->
  (forall n, (U n < 1)%Q) ->
  forall (n : nat) (cs : ndarray) (traj : list ndarray) (pos : nat),
    valid_state N cs = true ->
    exists tail,
      run_simulation_loop U n cs traj {| self := m; rng := pos |}
      = (Return (traj ++ tail), {| self := m; rng := pos + n |})
      /\ length tail = n
      /\ Forall (fun s => valid_state N s = true) tail.
Proof.
  intros Hm HU. induction n as [|n IH]; intros cs traj pos Hcs.
  - exists []. simpl. unfold ret. now rewrite app_nil_r, Nat.add_0_r.
  - destruct cs as [x|v]; [discriminate|].
    destruct (sample_next_state_valid U N m pos v Hm Hcs (HU pos))
      as (q & _ & _ & _ & _ & Hj & E).
    set (cs' := Vector (Np.one_hot N (pick q (U pos)))) in *.
    assert (Hcs' : valid_state N cs' = true) by now apply one_hot_valid.
    destruct (IH cs' (traj ++ [cs']) (S pos) Hcs') as (tail & Hrun & Hl & Hv).
    exists (cs' :: tail). simpl. unfold bind. rewrite E, Hrun.
    rewrite <- app_assoc. simpl.
    replace (S (pos + n)) with (pos + S n) by lia.
    replace (S pos + n) with (pos + S n) by lia.
    repeat split; auto.
Qed.

(** The rollout leaves the object alone, whatever its outcome. *)
Lemma run_simulation_loop_frame (U : nat -> Q) (n : nat) :
  forall (cs : ndarray) (traj : list ndarray) (w : world),
    self (snd (run_simulation_loop U n cs traj w)) = self w.
Proof.
  induction n as [|n IH]; intros cs traj w; simpl; [reflexivity|].
  unfold bind.
  destruct (sample_next_state_frame U cs w) as (Hs & _ & _).
  destruct (sample_next_state U cs w) as [[cs'|e] w1]; simpl in Hs.
  - now rewrite IH.
  - exact Hs.
Qed.

(** The rollout looks at no variate outside the [n] next ones. *)
Lemma run_simulation_loop_ext (U U' : nat -> Q) (n : nat) :
  forall (cs : ndarray) (traj : list ndarray) (w : world),
    (forall i, i < n -> U (rng w + i) = U' (rng w + i)) ->
    run_simulation_loop U n cs traj w = run_simulation_loop U' n cs traj w.
Proof.
  induction n as [|n IH]; intros cs traj w H; simpl; [reflexivity|].
  unfold bind.
  assert (H0 : U (rng w) = U' (rng w)).
  { specialize (H 0). rewrite Nat.add_0_r in H. apply H. lia. }
  rewrite <- (sample_next_state_ext U U' cs w H0).
  destruct (sample_next_state U cs w) as [[cs'|e] w1] eqn:E; [|reflexivity].
  apply sample_next_state_return in E. subst w1. apply IH. simpl.
  intros i Hi. replace (S (rng w + i)) with (rng w + S i) by lia.
  apply H. lia.
Qed.

(** ** Construction *)

Lemma divide_rows_sums (matrix : list (list Q)) :
  Np.divide_rows matrix (Np.sum_axis1 matrix)
  = map (fun row => map (fun x => Np.truediv x (Np.sum row)) row) matrix.
Proof.
  unfold Np.divide_rows, Np.sum_axis1.
  induction matrix as [|row t IH]; simpl; [reflexivity|]. now rewrite IH.
Qed.

Lemma sum_scaled (s : Q) (row : list Q) :
  (Np.sum (map (fun x => x / s) row) == Np.sum row / s)%Q.
Proof.
  unfold Np.sum. induction row as [|x t IH]; simpl.
  - unfold Qdiv. ring.
  - rewrite IH. unfold Qdiv. ring.
Qed.

Lemma scaled_nonneg (s : Q) (row : list Q) :
  (0 < s)%Q ->
  forallb (Qle_bool 0) row = true ->
  forallb (Qle_bool 0) (map (fun x => (x / s)%Q) row) = true.
Proof.
  intros Hpos. induction row as [|x t IH]; simpl; intros Hq; [reflexivity|].
  apply andb_true_iff in Hq as [Hx Ht]. rewrite (IH Ht), andb_true_r.
  apply Qle_bool_iff in Hx. apply Qle_bool_iff.
  apply Qle_shift_div_l; [assumption|lra].
Qed.

(** Dividing a non-negative row by its sum gives a distribution as soon as
    the sum is not zero. *)
Lemma normalized_row (row : list Q) :
  forallb (Qle_bool 0) row = true ->
  ~ (Np.sum row == 0)%Q ->
  stochastic_row (map (fun x => Np.truediv x (Np.sum row)) row) = true.
Proof.
  intros Hq Hs. pose proof (sum_nonneg row Hq) as H0.
  set (s := Np.sum row) in *.
  assert (Hpos : (0 < s)%Q) by lra.
  assert (Hdiv : forall x, Np.truediv x s = Fin (x / s)).
  { intros x. unfold Np.truediv.
    destruct (Qeq_bool s 0) eqn:E; [|reflexivity].
    apply Qeq_bool_iff in E. contradiction. }
  rewrite (map_ext _ (fun x => Fin (x / s)) Hdiv), <- map_map.
  unfold stochastic_row. rewrite finite_map_Fin.
  apply andb_true_iff. split.
  - now apply scaled_nonneg.
  - apply Qeq_bool_iff. rewrite sum_scaled. fold s. field. lra.
Qed.

(** ** [argmax] in general *)

Lemma argmax_from_spec (t : list Q) :
  forall (best : Q) (besti i : nat),
    let r := Np.argmax_from best besti i t in
    (r = besti /\ forall y, In y t -> (y <= best)%Q)
    \/ (i <= r
        /\ exists x, nth_error t (r - i) = Some x
                     /\ (best < x)%Q
                     /\ (forall y, In y t -> (y <= x)%Q)
                     /\ forall j y, j < r - i -> nth_error t j = Some y ->
                                    (y < x)%Q).
Proof.
  induction t as [|y t IH]; intros best besti i; simpl.
  - left. split; [reflexivity|]. intros y [].
  - destruct (Qle_bool y best) eqn:E.
    + apply Qle_bool_iff in E.
      destruct (IH best besti (S i)) as [[Hr Hall]|(Hr & x & Hx & Hb & Hall & Hpre)].
      * left. split; [exact Hr|]. intros z [<-|Hz]; auto.
      * right. split; [lia|]. exists x.
        replace (Np.argmax_from best besti (S i) t - i)
          with (S (Np.argmax_from best besti (S i) t - S i)) by lia.
        simpl. repeat split; auto.
        -- intros z [<-|Hz]; [lra|auto].
        -- intros [|j] z Hj Hz; simpl in Hz.
           ++ inversion Hz. subst. lra.
           ++ apply (Hpre j z); [lia|exact Hz].
    + assert (E' : (best < y)%Q).
      { apply Qnot_le_lt. intros C. apply Qle_bool_iff in C. congruence. }
      right.
      destruct (IH y i (S i)) as [[Hr Hall]|(Hr & x & Hx & Hb & Hall & Hpre)].
      * rewrite Hr. split; [lia|]. exists y. rewrite Nat.sub_diag. simpl.
        repeat split; auto.
        -- intros z [<-|Hz]; [lra|auto].
        -- intros j z Hj. lia.
      * split; [lia|]. exists x.
        replace (Np.argmax_from y i (S i) t - i)
          with (S (Np.argmax_from y i (S i) t - S i)) by lia.
        simpl. repeat split; auto.
        -- lra.
        -- intros z [<-|Hz]; [lra|auto].
        -- intros [|j] z Hj Hz; simpl in Hz.
           ++ inversion Hz. subst. lra.
           ++ apply (Hpre j z); [lia|exact Hz].
Qed.

(** [argmax] returns the first index of a maximal entry. *)
Lemma argmax_first_maximum (v : list Q) (i : nat) :
  Np.argmax (Vector v) = Return i ->
  exists x, nth_error v i = Some x
            /\ (forall y, In y v -> (y <= x)%Q)
            /\ forall j y, j < i -> nth_error v j = Some y -> (y < x)%Q.
Proof.
  destruct v as [|x0 t]; simpl; [discriminate|].
  intros H. inversion H as [Hi]. clear H.
  destruct (argmax_from_spec t x0 0 1)
    as [[Hr Hall]|(Hr & x & Hx & Hb & Hall & Hpre)].
  - rewrite Hr. exists x0. simpl. repeat split.
    + intros y [<-|Hy]; [lra|auto].
    + intros j y Hj. lia.
  - exists x.
    destruct (Np.argmax_from x0 0 1 t) as [|r] eqn:Er; [lia|].
    simpl in *. rewrite Nat.sub_0_r in *. repeat split; auto.
    + intros y [<-|Hy]; [lra|auto].
    + intros [|j] y Hj Hy; simpl in Hy.
      * inversion Hy. subst. lra.
      * apply (Hpre j y); [lia|exact Hy].
Qed.

Lemma argmax_from_lt (t : list Q) :
  forall (best : Q) (besti i : nat),
    besti < i -> Np.argmax_from best besti i t < i + length t.
Proof.
  induction t as [|y t IH]; intros best besti i H; simpl; [lia|].
  destruct (Qle_bool y best).
  - specialize (IH best besti (S i)). lia.
  - specialize (IH y i (S i)). lia.
Qed.

Lemma argmax_lt (v : list Q) :
  v <> [] -> exists i, Np.argmax (Vector v) = Return i /\ i < length v.
Proof.
  destruct v as [|x t]; [congruence|]. intros _. simpl.
  eexists. split; [reflexivity|].
  pose proof (argmax_from_lt t x 0 1). lia.
Qed.

(** NumPy accepts a square float64 array exactly up to dimension 2^30. *)
Lemma refused_square (N : Z) :
  Np.refused [N; N] = negb ((0 <=? N) && (N <? 1073741824))%Z.
Proof.
  unfold Np.refused, Np.NPY_MAX_INTP. cbn [existsb filter].
  rewrite orb_false_r.
  destruct (Z.eqb_spec N 0) as [->|H0]; [reflexivity|].
  cbn [negb fold_left].
  destruct (Z.ltb_spec N 0) as [Hn|Hn]; cbn [orb].
  - destruct (Z.leb_spec 0 N); [lia|reflexivity].
  - destruct (Z.leb_spec 0 N); [|lia]. cbn [andb].
    destruct (Z.ltb_spec N 1073741824) as [Hb|Hb]; cbn [negb].
    + apply Z.ltb_ge. nia.
    + apply Z.ltb_lt. nia.
Qed.

Lemma init_eval (U : nat -> Q) (N : Z) (pos : nat) :
  (0 <= N < 1073741824)%Z ->
  __init__ U N pos
  = (Return {| world_size := N;
               states := map (Np.one_hot (Z.to_nat N)) (seq 0 (Z.to_nat N));
               transition_matrix :=
                 map (fun row => map (fun x => Np.truediv x (Np.sum row)) row)
                     (map (drawn_row U pos (Z.to_nat N)) (seq 0 (Z.to_nat N)))
            |},
     pos + Z.to_nat N * Z.to_nat N).
Proof.
  intros H. unfold __init__, _create_transition_matrix, bind, lift_outcome,
    Np.eye, uniform, ret.
  rewrite refused_square.
  destruct (Z.leb_spec 0 N); [|lia].
  destruct (Z.ltb_spec N 1073741824); [|lia].
  simpl. now rewrite divide_rows_sums.
Qed.

Lemma sum_pos (l : list Q) (x : Q) :
  forallb (Qle_bool 0) l = true -> In x l -> ~ (x == 0)%Q -> ~ (Np.sum l == 0)%Q.
Proof.
  unfold Np.sum. induction l as [|y t IH]; simpl; intros Hq Hin Hx; [tauto|].
  apply andb_true_iff in Hq as [Hy Ht]. apply Qle_bool_iff in Hy.
  pose proof (sum_nonneg t Ht) as Hs. unfold Np.sum in Hs.
  destruct Hin as [->|Hin].
  - lra.
  - specialize (IH Ht Hin Hx). lra.
Qed.

Lemma drawn_row_nonneg (U : nat -> Q) (pos n i : nat) :
  unit_interval U -> forallb (Qle_bool 0) (drawn_row U pos n i) = true.
Proof.
  intros HU. apply forallb_forall. intros x Hx.
  apply in_map_iff in Hx as (j & <- & _). apply Qle_bool_iff. apply HU.
Qed.

Lemma quarters_unit : unit_interval quarters.
Proof.
  intros n. unfold quarters, Qle, Qlt. cbn [Qnum Qden].
  pose proof (Nat.mod_upper_bound n 4). lia.
Defined.

Lemma stuck_at_zero_unit : unit_interval stuck_at_zero.
Proof. intros n. unfold stuck_at_zero. split; [apply Qle_refl|reflexivity]. Defined.

(** * The claims *)

(** ** C1 *)

(** C1 at a draw of zero: with [world_size = 1] and a generator whose first
    variate is 0 (a value of [0,1)) the only row has sum 0, the division
    gives [nan], and the matrix construction returns has no row that sums
    to 1, against the docstring's "a normalized transition matrix". *)
Lemma init_zero_draw_not_stochastic :
  unit_interval stuck_at_zero
  /\ exists m,
       __init__ stuck_at_zero 1 0 = (Return m, 1)
       /\ transition_matrix m = [[NaN]]
       /\ stochastic 1 (transition_matrix m) = false.
Proof.
  split; [exact stuck_at_zero_unit|].
  eexists. split; [reflexivity|]. split; reflexivity.
Qed.

(** Construction away from that case, in exact arithmetic: for every
    [world_size] N >= 1 that NumPy accepts it returns a model whose
    transition matrix is N-by-N; when the variates lie in [0,1) and every
    row of them has an entry that is not zero, every entry of the matrix is
    finite and >= 0 and every row sums to 1 (with rational quotients; the
    float64 quotients the code stores are rounded). *)
Theorem init_stochastic (U : nat -> Q) (N : Z) (pos : nat) :
  (1 <= N < 1073741824)%Z ->
  exists m,
    __init__ U N pos = (Return m, pos + Z.to_nat N * Z.to_nat N)
    /\ world_size m = N
    /\ length (transition_matrix m) = Z.to_nat N
    /\ Forall (fun row => length row = Z.to_nat N) (transition_matrix m)
    /\ (unit_interval U ->
        nonzero_rows U pos (Z.to_nat N) ->
        stochastic (Z.to_nat N) (transition_matrix m) = true).
Proof.
  intros HN. eexists. split; [apply init_eval; lia|]. simpl.
  set (n := Z.to_nat N).
  split; [reflexivity|].
  split; [now rewrite !length_map, length_seq|].
  split.
  - apply Forall_forall. intros row Hrow.
    apply in_map_iff in Hrow as (d & <- & Hd).
    apply in_map_iff in Hd as (i & <- & _).
    unfold drawn_row. now rewrite !length_map, length_seq.
  - intros HU Hnz. unfold stochastic.
    rewrite !length_map, length_seq, Nat.eqb_refl. simpl.
    apply forallb_forall. intros row Hrow.
    apply in_map_iff in Hrow as (d & <- & Hd).
    apply in_map_iff in Hd as (i & <- & Hi). apply in_seq in Hi.
    apply andb_true_iff. split.
    + apply Nat.eqb_eq. unfold drawn_row.
      now rewrite !length_map, length_seq.
    + apply normalized_row; [now apply drawn_row_nonneg|].
      destruct (Hnz i) as (j & Hj & Hx); [lia|].
      apply (sum_pos _ (U (pos + i * n + j))); auto.
      * now apply drawn_row_nonneg.
      * unfold drawn_row. apply in_map_iff. exists j. split; [reflexivity|].
        apply in_seq. lia.
Qed.

Lemma init_stochastic_witness :
  exists m,
    __init__ quarters 2 0 = (Return m, 4)
    /\ stochastic 2 (transition_matrix m) = true.
Proof.
  destruct (init_stochastic quarters 2 0) as (m & E & _ & _ & _ & H); [lia|].
  exists m. split; [exact E|]. apply H; [exact quarters_unit|].
  intros i Hi. destruct i as [|[|i]]; [exists 1|exists 0|lia];
    (split; [lia|vm_compute; discriminate]).
Defined.

(** ** C2 *)

(** C2: from a valid initial state [s0] of a well-formed model,
    [run_simulation s0 k] with k >= 0 returns a trajectory of exactly k+1
    states whose first element is [s0] (and has drawn k variates); with
    k = 0 it returns exactly [[s0]], whatever [s0] and the model are. *)
Theorem run_simulation_length (U : nat -> Q) (N : nat) (m : GenerativeModel)
  (pos : nat) (s0 : ndarray) (k : Z) :
  stochastic N (transition_matrix m) = true ->
  unit_interval U ->
  valid_state N s0 = true ->
  (0 <= k)%Z ->
  (exists traj,
     run_simulation U s0 k {| self := m; rng := pos |}
     = (Return traj, {| self := m; rng := pos + Z.to_nat k |})
     /\ Z.of_nat (length traj) = (k + 1)%Z
     /\ hd_error traj = Some s0)
  /\ forall w, run_simulation U s0 0 w = (Return [s0], w).
Proof.
  intros Hm HU Hs Hk. split; [|reflexivity].
  destruct (run_simulation_loop_valid U N m Hm (fun n => proj2 (HU n))
              (Z.to_nat k) s0 [s0] pos Hs) as (tail & E & Hl & _).
  exists ([s0] ++ tail). split; [exact E|]. split; [|reflexivity].
  simpl. rewrite Hl. lia.
Qed.

Lemma run_simulation_length_witness :
  exists traj,
    run_simulation quarters (Vector [1; 0]%Q) 3 {| self := built2; rng := 4 |}
    = (Return traj, {| self := built2; rng := 7 |})
    /\ Z.of_nat (length traj) = 4%Z
    /\ hd_error traj = Some (Vector [1; 0]%Q).
Proof.
  apply (run_simulation_length quarters 2 built2 4 (Vector [1; 0]%Q) 3).
  - reflexivity.
  - exact quarters_unit.
  - reflexivity.
  - lia.
Defined.

(** ** C3 *)

(** The step in exact arithmetic: for a well-formed model and a valid
    current state, which [argmax] decodes to its index i, row i of the
    matrix is a list [q] of finite entries, and for every column j the step
    returns the one-hot vector of j exactly when the variate it draws falls
    in the interval from the sum of the first j entries to the sum of the
    first j+1 entries.  That interval lies in [0,1] and its length is the
    stored entry [q_j]: with cumulative sums that are not rounded, index j
    is drawn with probability [q_j]. *)
Theorem sample_next_state_probability (N : nat) (m : GenerativeModel)
  (v : list Q) :
  stochastic N (transition_matrix m) = true ->
  valid_state N (Vector v) = true ->
  exists q,
    Np.argmax (Vector v) = Return (hot_index v)
    /\ nth_error (transition_matrix m) (hot_index v) = Some (map Fin q)
    /\ length q = N
    /\ forall j x,
         nth_error q j = Some x ->
         (prefix_sum q (S j) - prefix_sum q j == x)%Q
         /\ (0 <= prefix_sum q j)%Q
         /\ (prefix_sum q (S j) <= 1)%Q
         /\ forall U pos,
              unit_interval U ->
              fst (sample_next_state U (Vector v) {| self := m; rng := pos |})
              = Return (Vector (Np.one_hot N j))
              <-> (prefix_sum q j <= U pos)%Q
                  /\ (U pos < prefix_sum q (S j))%Q.
Proof.
  intros Hm Hv.
  destruct (sample_next_state_valid (fun _ => 0%Q) N m 0 v Hm Hv)
    as (q & Hrow & Hlq & Hq & Hs & _ & _); [reflexivity|].
  exists q.
  split.
  { simpl in Hv. apply andb_true_iff in Hv as [_ Hv].
    now apply argmax_one_hot. }
  split; [exact Hrow|]. split; [exact Hlq|].
  intros j x Hx.
  assert (Hj : j < length q) by (apply nth_error_Some; congruence).
  assert (Hne : q <> []) by (destruct q; simpl in *; [lia|discriminate]).
  split; [now apply prefix_sum_step|].
  split; [now apply prefix_sum_nonneg|].
  split; [rewrite <- Hs; now apply prefix_sum_le_sum|].
  intros U pos HU.
  destruct (sample_next_state_valid U N m pos v Hm Hv (proj2 (HU pos)))
    as (q' & Hrow' & _ & _ & _ & Hlt & E).
  rewrite Hrow in Hrow'. inversion Hrow' as [Hqq].
  assert (q' = q) as ->.
  { clear -Hqq. revert q' Hqq. induction q as [|a t IH]; intros [|b t'] H;
      simpl in H; try discriminate; [reflexivity|].
    inversion H. subst. f_equal. now apply IH. }
  rewrite E. simpl fst.
  rewrite <- (pick_interval q (U pos) j Hne Hq Hs (proj1 (HU pos)) Hj).
  split.
  - intros H. inversion H as [H1].
    rewrite <- (one_hot_index N (pick q (U pos))) by assumption.
    rewrite H1. apply one_hot_index. lia.
  - now intros ->.
Qed.

Lemma sample_next_state_probability_witness :
  exists q,
    nth_error (transition_matrix chain3) 1 = Some (map Fin q)
    /\ (prefix_sum q 3 - prefix_sum q 2 == 1 # 2)%Q
    /\ (fst (sample_next_state quarters (Vector [0; 1; 0]%Q)
               {| self := chain3; rng := 2 |})
        = Return (Vector (Np.one_hot 3 2))
        <-> (prefix_sum q 2 <= quarters 2)%Q
            /\ (quarters 2 < prefix_sum q 3)%Q).
Proof.
  destruct (sample_next_state_probability 3 chain3 [0; 1; 0]%Q)
    as (q & _ & Hrow & _ & H); [reflexivity|reflexivity|].
  exists q. split; [exact Hrow|].
  simpl in Hrow. inversion Hrow as [Hq].
  destruct (H 2 (1 # 2)%Q) as (Hw & _ & _ & Hiff).
  { destruct q as [|a [|b [|c [|d t]]]]; simpl in Hq; try discriminate.
    inversion Hq. reflexivity. }
  split; [exact Hw|]. apply Hiff. exact quarters_unit.
Defined.

(** The step in float64 arithmetic. *)








(** ** C4 *)

(** C4: for a well-formed model of N states and a valid one-hot input of
    length N, [sample_next_state] returns the one-hot vector of an index in
    [0, N), and every element of the trajectory [run_simulation] returns
    from that input is a valid one-hot vector of length N. *)
Theorem trajectory_states_valid (U : nat -> Q) (N : nat) (m : GenerativeModel)
  (pos : nat) (s : ndarray) :
  stochastic N (transition_matrix m) = true ->
  unit_interval U ->
  valid_state N s = true ->
  (exists j,
     j < N
     /\ fst (sample_next_state U s {| self := m; rng := pos |})
        = Return (Vector (Np.one_hot N j))
     /\ valid_state N (Vector (Np.one_hot N j)) = true)
  /\ forall k, exists traj,
       fst (run_simulation U s k {| self := m; rng := pos |}) = Return traj
       /\ Forall (fun x => valid_state N x = true) traj.
Proof.
  intros Hm HU Hs. split.
  - destruct s as [x|v]; [discriminate|].
    destruct (sample_next_state_valid U N m pos v Hm Hs (proj2 (HU pos)))
      as (q & _ & _ & _ & _ & Hj & E).
    exists (pick q (U pos)). split; [exact Hj|]. rewrite E.
    split; [reflexivity|now apply one_hot_valid].
  - intros k.
    destruct (run_simulation_loop_valid U N m Hm (fun n => proj2 (HU n))
                (Z.to_nat k) s [s] pos Hs) as (tail & E & _ & Hv).
    exists ([s] ++ tail). unfold run_simulation. rewrite E.
    split; [reflexivity|]. simpl. now constructor.
Qed.

Lemma trajectory_states_valid_witness :
  exists traj,
    fst (run_simulation quarters (Vector [0; 0; 1]%Q) 6
           {| self := chain3; rng := 1 |}) = Return traj
    /\ Forall (fun x => valid_state 3 x = true) traj.
Proof.
  apply (trajectory_states_valid quarters 3 chain3 1 (Vector [0; 0; 1]%Q)).
  - reflexivity.
  - exact quarters_unit.
  - reflexivity.
Defined.

(** ** C5 *)

(** C5: in every trajectory [run_simulation] returns, element i+1 is the
    result of [sample_next_state] on element i, run on the same object with
    the generator i draws past where the rollout started; the step reads
    the variate at that position and no other, so element i+1 is a function
    of element i and of one fresh variate, and of no earlier element. *)
Theorem run_simulation_markov (U : nat -> Q) (s0 : ndarray) (k : Z)
  (w w' : world) (traj : list ndarray) :
  run_simulation U s0 k w = (Return traj, w') ->
  forall i x y,
    nth_error traj i = Some x ->
    nth_error traj (S i) = Some y ->
    sample_next_state U x {| self := self w; rng := rng w + i |}
    = (Return y, {| self := self w; rng := rng w + S i |})
    /\ forall U',
         U' (rng w + i) = U (rng w + i) ->
         sample_next_state U' x {| self := self w; rng := rng w + i |}
         = (Return y, {| self := self w; rng := rng w + S i |}).
Proof.
  intros H i x y Hx Hy.
  destruct (run_simulation_loop_return U (Z.to_nat k) s0 [s0] traj w w' H)
    as (tail & -> & _ & _ & Hstep).
  simpl in Hx, Hy. specialize (Hstep i x y Hx Hy).
  split; [exact Hstep|]. intros U' HU'.
  rewrite <- Hstep. apply sample_next_state_ext. simpl. exact HU'.
Qed.

Lemma run_simulation_markov_witness :
  sample_next_state quarters (Vector [0; 1; 0]%Q) {| self := chain3; rng := 3 |}
  = (Return (Vector [0; 0; 1]%Q), {| self := chain3; rng := 4 |}).
Proof.
  refine (proj1 (run_simulation_markov quarters (Vector [1; 0; 0]%Q) 4
                   {| self := chain3; rng := 0 |} {| self := chain3; rng := 4 |}
                   [Vector [1; 0; 0]; Vector [1; 0; 0]; Vector [1; 0; 0];
                    Vector [0; 1; 0]; Vector [0; 0; 1]]%Q
                   _ 3 (Vector [0; 1; 0]%Q) (Vector [0; 0; 1]%Q) _ _)).
  - reflexivity.
  - reflexivity.
  - reflexivity.
Defined.

(** ** C9 *)

(** C9: [sample_next_state] and [run_simulation] leave the object (its
    [transition_matrix], [world_size] and [states]) as it was, whatever
    their outcome; and of two successive calls of [run_simulation] on a
    well-formed model with the same valid initial state, the first leaves
    only the generator advanced by [num_steps], and the second returns a
    trajectory that is determined by the variates after those the first
    call consumed: replacing the generator by one that agrees with it on
    the second call's variates only gives the same second trajectory. *)
Theorem model_frame_and_resampling :
  (forall U s w, self (snd (sample_next_state U s w)) = self w)
  /\ (forall U s k w, self (snd (run_simulation U s k w)) = self w)
  /\ forall (U U' : nat -> Q) (N : nat) (m : GenerativeModel) (pos : nat)
            (s0 : ndarray) (k : Z),
       stochastic N (transition_matrix m) = true ->
       unit_interval U ->
       unit_interval U' ->
       valid_state N s0 = true ->
       (forall i, i < Z.to_nat k ->
                  U' (pos + Z.to_nat k + i) = U (pos + Z.to_nat k + i)) ->
       let w := {| self := m; rng := pos |} in
       snd (run_simulation U s0 k w)
       = {| self := m; rng := pos + Z.to_nat k |}
       /\ fst (run_simulation U' s0 k (snd (run_simulation U' s0 k w)))
          = fst (run_simulation U s0 k (snd (run_simulation U s0 k w))).
Proof.
  split; [intros U s w; apply sample_next_state_frame|].
  split; [intros U s k w; apply run_simulation_loop_frame|].
  intros U U' N m pos s0 k Hm HU HU' Hs Hagree w.
  destruct (run_simulation_loop_valid U N m Hm (fun n => proj2 (HU n))
              (Z.to_nat k) s0 [s0] pos Hs) as (t1 & E1 & _ & _).
  destruct (run_simulation_loop_valid U' N m Hm (fun n => proj2 (HU' n))
              (Z.to_nat k) s0 [s0] pos Hs) as (t1' & E1' & _ & _).
  unfold run_simulation, w. rewrite E1, E1'. simpl snd.
  split; [reflexivity|]. f_equal.
  apply run_simulation_loop_ext. exact Hagree.
Qed.

Lemma late_quarters_unit : unit_interval late_quarters.
Proof.
  intros n. unfold late_quarters.
  destruct (Nat.ltb n 2); [split; [discriminate|reflexivity]|].
  apply quarters_unit.
Defined.

Lemma model_frame_and_resampling_witness :
  snd (run_simulation quarters (Vector [1; 0; 0]%Q) 2
         {| self := chain3; rng := 0 |})
  = {| self := chain3; rng := 2 |}
  /\ fst (run_simulation late_quarters
            (Vector [1; 0; 0]%Q) 2
            (snd (run_simulation late_quarters
                    (Vector [1; 0; 0]%Q) 2 {| self := chain3; rng := 0 |})))
     = fst (run_simulation quarters (Vector [1; 0; 0]%Q) 2
              (snd (run_simulation quarters (Vector [1; 0; 0]%Q) 2
                      {| self := chain3; rng := 0 |}))).
Proof.
  apply (proj2 (proj2 model_frame_and_resampling) quarters
           late_quarters 3 chain3 0
           (Vector [1; 0; 0]%Q) 2%Z).
  - reflexivity.
  - exact quarters_unit.
  - exact late_quarters_unit.
  - reflexivity.
  - intros i Hi. simpl in Hi.
    destruct i as [|[|i]]; [reflexivity|reflexivity|lia].
Defined.

(** ** Inputs that are not valid states *)

(** A step from any non-empty vector whose first maximum lies at a row of a
    well-formed model, when the vector is at least as long as the rows. *)
Lemma sample_next_state_any_vector (U : nat -> Q) (N : nat)
  (m : GenerativeModel) (pos : nat) (v : list Q) (i : nat) :
  stochastic N (transition_matrix m) = true ->
  (U pos < 1)%Q ->
  Np.argmax (Vector v) = Return i ->
  i < N ->
  N <= length v ->
  exists j,
    j < N
    /\ sample_next_state U (Vector v) {| self := m; rng := pos |}
       = (Return (Vector (Np.one_hot (length v) j)),
          {| self := m; rng := S pos |}).
Proof.
  intros Hm Hu Hi HiN Hlen.
  destruct (stochastic_row_at _ _ _ Hm HiN) as (q & Hrow & Hlq & Hq & Hs).
  assert (Hne : q <> []) by (destruct q; simpl in *; [lia|discriminate]).
  exists (pick q (U pos)).
  split; [rewrite <- Hlq; now apply pick_lt|].
  rewrite sample_next_state_unfold, Hi.
  apply sample_from_row_distribution; auto. lia.
Qed.

Lemma argmax_all_zero (v : list Q) :
  v <> [] ->
  forallb (fun y => Qeq_bool y 0) v = true ->
  Np.argmax (Vector v) = Return 0.
Proof.
  destruct v as [|x t]; [congruence|]. intros _ H. simpl in *.
  apply andb_true_iff in H as [Hx Ht]. apply Qeq_bool_iff in Hx.
  rewrite argmax_from_zeros; [reflexivity|lra|assumption].
Qed.

(** ** C6 *)

(** C6, as stated, fails: constructing with [world_size = 0] returns a model
    (with an empty matrix), [run_simulation] with [num_steps = -1] returns
    the one-element trajectory, and [sample_next_state] returns a state for
    an all-zero vector, for a vector with two nonzero entries and for a
    vector of the wrong length; none of them raises. *)
Lemma misuse_returns_results :
  (exists m, __init__ quarters 0 0 = (Return m, 0)
             /\ transition_matrix m = [])
  /\ run_simulation quarters (Vector [1; 0; 0]%Q) (-1)
       {| self := chain3; rng := 0 |}
     = (Return [Vector [1; 0; 0]%Q], {| self := chain3; rng := 0 |})
  /\ fst (sample_next_state quarters (Vector [0; 0; 0]%Q)
            {| self := chain3; rng := 0 |})
     = Return (Vector [1; 0; 0]%Q)
  /\ fst (sample_next_state quarters (Vector [0; 1; 1]%Q)
            {| self := chain3; rng := 2 |})
     = Return (Vector [0; 0; 1]%Q)
  /\ fst (sample_next_state quarters (Vector [1; 0]%Q)
            {| self := chain3; rng := 0 |})
     = Return (Vector [1; 0]%Q).
Proof.
  split; [eexists; split; reflexivity|].
  repeat split; reflexivity.
Qed.

(** C6, amended: none of the three operations validates its argument.
    Constructing with [world_size = 0] returns a model with an empty
    matrix and draws nothing; [run_simulation] with [num_steps <= 0] (so
    with -1) returns the trajectory [[s0]] and leaves the world as it was;
    [sample_next_state] on a well-formed model of N >= 1 states returns a
    one-hot vector of length N for every input vector of length N, so also
    for an all-zero one and for one with several nonzero entries. *)
Theorem misuse_not_rejected :
  (forall U pos,
     __init__ U 0 pos
     = (Return {| world_size := 0; states := []; transition_matrix := [] |},
        pos))
  /\ (forall U s0 k w, (k <= 0)%Z -> run_simulation U s0 k w = (Return [s0], w))
  /\ forall U N m pos v,
       stochastic N (transition_matrix m) = true ->
       unit_interval U ->
       1 <= N ->
       length v = N ->
       exists j,
         j < N
         /\ sample_next_state U (Vector v) {| self := m; rng := pos |}
            = (Return (Vector (Np.one_hot N j)), {| self := m; rng := S pos |}).
Proof.
  split.
  { intros U pos. rewrite init_eval by lia. simpl. now rewrite Nat.add_0_r. }
  split.
  { intros U s0 k w Hk. unfold run_simulation.
    replace (Z.to_nat k) with 0 by lia. reflexivity. }
  intros U N m pos v Hm HU HN Hl.
  destruct (argmax_lt v) as (i & Hi & HiN).
  { destruct v; simpl in *; [lia|discriminate]. }
  rewrite <- Hl. rewrite <- Hl in Hm.
  apply (sample_next_state_any_vector U (length v) m pos v i); auto.
  apply HU.
Qed.

Lemma misuse_not_rejected_witness :
  run_simulation quarters (Scalar 7) (-1) {| self := chain3; rng := 5 |}
  = (Return [Scalar 7], {| self := chain3; rng := 5 |})
  /\ exists j,
       j < 3
       /\ sample_next_state quarters (Vector [1; 1; 0]%Q)
            {| self := chain3; rng := 1 |}
          = (Return (Vector (Np.one_hot 3 j)), {| self := chain3; rng := 2 |}).
Proof.
  split.
  - apply (proj1 (proj2 misuse_not_rejected)). lia.
  - apply (proj2 (proj2 misuse_not_rejected) quarters 3 chain3 1
             [1; 1; 0]%Q).
    + reflexivity.
    + exact quarters_unit.
    + lia.
    + reflexivity.
Defined.

(** ** C7 *)

(** C7, as stated, fails: the vector [0, 1, 1] has more than one nonzero
    entry and is decoded as index 1, not 0; the step from it returns state
    2, which row 0 of the model gives probability 0 (drawing from row 0 with
    the same variate gives state 1). *)
Lemma two_nonzero_entries_decode_to_first_maximum :
  Np.argmax (Vector [0; 1; 1]%Q) = Return 1
  /\ fst (sample_next_state quarters (Vector [0; 1; 1]%Q)
            {| self := chain3; rng := 2 |})
     = Return (Vector [0; 0; 1]%Q)
  /\ fst (sample_from_row quarters 0 (Vector [0; 1; 1]%Q)
            {| self := chain3; rng := 2 |})
     = Return (Vector [0; 1; 0]%Q)
  /\ nth_error (transition_matrix chain3) 0
     = Some [Fin (1 # 2); Fin (1 # 2); Fin 0].
Proof. repeat split; reflexivity. Qed.

(** C7, amended: [sample_next_state] does not validate its input.  An
    all-zero vector is treated as state index 0: the step samples from row
    0.  Any other vector, so also one with more than one nonzero entry, is
    treated as the index of its first maximal entry and the step samples
    from that row; on a well-formed model of N states a vector of length N
    always gets a state back. *)
Theorem malformed_state_decoding (U : nat -> Q) (v : list Q) (w : world) :
  (v <> [] ->
   forallb (fun y => Qeq_bool y 0) v = true ->
   sample_next_state U (Vector v) w = sample_from_row U 0 (Vector v) w)
  /\ (forall i,
        Np.argmax (Vector v) = Return i ->
        sample_next_state U (Vector v) w = sample_from_row U i (Vector v) w
        /\ exists x,
             nth_error v i = Some x
             /\ (forall y, In y v -> (y <= x)%Q)
             /\ forall j y, j < i -> nth_error v j = Some y -> (y < x)%Q)
  /\ (stochastic (length v) (transition_matrix (self w)) = true ->
      unit_interval U ->
      v <> [] ->
      exists j,
        j < length v
        /\ fst (sample_next_state U (Vector v) w)
           = Return (Vector (Np.one_hot (length v) j))).
Proof.
  split; [|split].
  - intros Hne Hz. rewrite sample_next_state_unfold.
    now rewrite (argmax_all_zero v Hne Hz).
  - intros i Hi. split.
    + rewrite sample_next_state_unfold. now rewrite Hi.
    + now apply argmax_first_maximum.
  - intros Hm HU Hne. destruct (argmax_lt v Hne) as (i & Hi & HiN).
    destruct w as [m pos]. simpl in Hm.
    destruct (sample_next_state_any_vector U (length v) m pos v i Hm
                (proj2 (HU pos)) Hi HiN (le_n _)) as (j & Hj & E).
    exists j. split; [exact Hj|]. now rewrite E.
Qed.

Lemma malformed_state_decoding_witness :
  sample_next_state quarters (Vector [0; 0; 0]%Q) {| self := chain3; rng := 3 |}
  = sample_from_row quarters 0 (Vector [0; 0; 0]%Q)
      {| self := chain3; rng := 3 |}
  /\ sample_next_state quarters (Vector [0; 2; 2]%Q)
       {| self := chain3; rng := 3 |}
     = sample_from_row quarters 1 (Vector [0; 2; 2]%Q)
         {| self := chain3; rng := 3 |}.
Proof.
  split.
  - apply (proj1 (malformed_state_decoding quarters [0; 0; 0]%Q
                    {| self := chain3; rng := 3 |}));
      [discriminate|reflexivity].
  - apply (proj1 (proj2 (malformed_state_decoding quarters [0; 2; 2]%Q
                           {| self := chain3; rng := 3 |})) 1).
    reflexivity.
Defined.

(** ** C8 *)

(** C8, as stated, fails: with the plain integer 1 as current state the
    decoded index is 0 and the call raises (the zero array made from a plain
    number is 0-dimensional and cannot be indexed), while the one-hot
    encoding of 1 samples from row 1 and returns a state. *)
Lemma plain_integer_state_raises :
  Np.argmax (Scalar 1) = Return 0
  /\ sample_next_state quarters (Scalar 1) {| self := chain3; rng := 2 |}
     = (Raise IndexError, {| self := chain3; rng := 3 |})
  /\ sample_next_state quarters (Vector (Np.one_hot 3 1))
       {| self := chain3; rng := 2 |}
     = (Return (Vector [0; 0; 1]%Q), {| self := chain3; rng := 3 |}).
Proof. repeat split; reflexivity. Qed.

(** C8, amended: [sample_next_state] supports the one-hot form only.  The
    one-hot encoding of an index k in [0, N) is decoded as k and the step
    samples from row k.  A plain number is decoded as index 0 whatever its
    value, and the call never returns a state: it raises. *)
Theorem plain_integer_state_unsupported (U : nat -> Q) (w : world) :
  (forall N k,
     k < N ->
     Np.argmax (Vector (Np.one_hot N k)) = Return k
     /\ sample_next_state U (Vector (Np.one_hot N k)) w
        = sample_from_row U k (Vector (Np.one_hot N k)) w)
  /\ forall x,
       Np.argmax (Scalar x) = Return 0
       /\ exists e, fst (sample_next_state U (Scalar x) w) = Raise e.
Proof.
  split.
  - intros N k Hk.
    assert (E : Np.argmax (Vector (Np.one_hot N k)) = Return k).
    { pose proof (one_hot_valid N k Hk) as Hv. simpl in Hv.
      apply andb_true_iff in Hv as [_ Hv].
      rewrite (argmax_one_hot _ Hv). now rewrite one_hot_index. }
    split; [exact E|]. rewrite sample_next_state_unfold. now rewrite E.
  - intros x. split; [reflexivity|].
    rewrite sample_next_state_unfold. simpl Np.argmax. cbv iota.
    unfold sample_from_row, bind, get_self, lift_outcome, with_rng.
    destruct (Np.getitem (transition_matrix (self w)) 0) as [p|e];
      [|eexists; reflexivity].
    destruct (choice_cases U (length p) p (rng w)) as [E|[j E]]; rewrite E;
      eexists; reflexivity.
Qed.

Lemma plain_integer_state_unsupported_witness :
  sample_next_state quarters (Vector (Np.one_hot 3 2))
    {| self := chain3; rng := 1 |}
  = sample_from_row quarters 2 (Vector (Np.one_hot 3 2))
      {| self := chain3; rng := 1 |}.
Proof.
  apply (proj1 (plain_integer_state_unsupported quarters
                  {| self := chain3; rng := 1 |}) 3 2).
  lia.
Defined.

(** ** C10 *)

(** C10: whenever [sample_next_state] returns for an input vector, the
    result is a one-hot vector of the length of the input, whatever the
    number of states of the model; and for an input longer than the N rows
    of a well-formed model whose first maximum lies at an index below N the
    call does return, with a one-hot vector as long as the input whose 1 is
    at an index below N. *)
Theorem output_shaped_like_input (U : nat -> Q) (v : list Q) (w : world) :
  (forall r,
     fst (sample_next_state U (Vector v) w) = Return r ->
     exists j, j < length v /\ r = Vector (Np.one_hot (length v) j)
               /\ length (Np.one_hot (length v) j) = length v)
  /\ forall N i,
       stochastic N (transition_matrix (self w)) = true ->
       unit_interval U ->
       N < length v ->
       Np.argmax (Vector v) = Return i ->
       i < N ->
       exists j,
         j < N
         /\ fst (sample_next_state U (Vector v) w)
            = Return (Vector (Np.one_hot (length v) j))
         /\ length (Np.one_hot (length v) j) = length v.
Proof.
  split.
  - intros r H. rewrite sample_next_state_unfold in H.
    destruct (Np.argmax (Vector v)) as [i|e]; [|discriminate].
    unfold sample_from_row, bind, get_self, lift_outcome, with_rng in H.
    destruct (Np.getitem (transition_matrix (self w)) i) as [p|e];
      [|discriminate].
    destruct (choice_cases U (length p) p (rng w)) as [E|[j E]];
      rewrite E in H; [discriminate|].
    cbn [fst] in H.
    destruct (setitem_length (Vector v) r j 1 H) as (v' & Hv' & Hj & E').
    inversion Hv'. subst v'. exists j. split; [exact Hj|].
    rewrite H in E'. inversion E'. split; [reflexivity|].
    apply one_hot_length.
  - intros N i Hm HU Hlen Hi HiN. destruct w as [m pos]. simpl in Hm.
    destruct (sample_next_state_any_vector U N m pos v i Hm (proj2 (HU pos))
                Hi HiN) as (j & Hj & E); [lia|].
    exists j. split; [exact Hj|]. rewrite E.
    split; [reflexivity|apply one_hot_length].
Qed.

Lemma output_shaped_like_input_witness :
  exists j,
    j < 3
    /\ fst (sample_next_state quarters (Vector [0; 1; 0; 0; 0]%Q)
              {| self := chain3; rng := 3 |})
       = Return (Vector (Np.one_hot 5 j))
    /\ length (Np.one_hot 5 j) = 5.
Proof.
  apply (proj2 (output_shaped_like_input quarters [0; 1; 0; 0; 0]%Q
                  {| self := chain3; rng := 3 |}) 3 1).
  - reflexivity.
  - exact quarters_unit.
  - simpl. lia.
  - reflexivity.
  - lia.
Defined.


(** * Further properties of the code *)

Lemma halves_unit : unit_interval halves.
Proof. intros n. unfold halves. split; [discriminate|reflexivity]. Defined.

Lemma zero_start_unit : unit_interval zero_start.
Proof.
  intros n. unfold zero_start.
  destruct (Nat.ltb n 4); [split; [apply Qle_refl|reflexivity]|].
  apply quarters_unit.
Defined.

(** ** Construction *)

(** The matrix construction stores for [n] states and the variates from
    position [pos] on. *)
Lemma constructed_matrix_stochastic (U : nat -> Q) (pos n : nat) :
  unit_interval U ->
  nonzero_rows U pos n ->
  stochastic n
    (map (fun row => map (fun x => Np.truediv x (Np.sum row)) row)
         (map (drawn_row U pos n) (seq 0 n))) = true.
Proof.
  intros HU Hnz. unfold stochastic.
  rewrite !length_map, length_seq, Nat.eqb_refl. simpl.
  apply forallb_forall. intros row Hrow.
  apply in_map_iff in Hrow as (d & <- & Hd).
  apply in_map_iff in Hd as (i & <- & Hi). apply in_seq in Hi.
  apply andb_true_iff. split.
  - apply Nat.eqb_eq. unfold drawn_row. now rewrite !length_map, length_seq.
  - apply normalized_row; [now apply drawn_row_nonneg|].
    destruct (Hnz i) as (j & Hj & Hx); [lia|].
    apply (sum_pos _ (U (pos + i * n + j))); auto.
    + now apply drawn_row_nonneg.
    + unfold drawn_row. apply in_map_iff. exists j. split; [reflexivity|].
      apply in_seq. lia.
Qed.

Lemma nth_error_map_seq {A : Type} (f : nat -> A) (n i : nat) :
  i < n -> nth_error (map f (seq 0 n)) i = Some (f i).
Proof.
  intros H. rewrite nth_error_map, nth_error_seq.
  destruct (Nat.ltb_spec i n); [reflexivity|lia].
Qed.

(** X2: construction raises [ValueError], without drawing, exactly when
    [world_size] is negative or at least 2^30 (the size of the square array
    then exceeds what NumPy can index); otherwise it returns, has drawn
    [world_size] squared variates, and has stored [world_size] and as
    [states] the rows of the identity: row i is the valid one-hot encoding
    of i, which [argmax] decodes back to i. *)
Theorem init_outcome (U : nat -> Q) (N : Z) (pos : nat) :
  ((N < 0 \/ 1073741824 <= N)%Z ->
   __init__ U N pos = (Raise ValueError, pos))
  /\ ((0 <= N < 1073741824)%Z ->
      exists m,
        __init__ U N pos = (Return m, pos + Z.to_nat N * Z.to_nat N)
        /\ world_size m = N
        /\ length (states m) = Z.to_nat N
        /\ forall i,
             i < Z.to_nat N ->
             nth_error (states m) i = Some (Np.one_hot (Z.to_nat N) i)
             /\ valid_state (Z.to_nat N) (Vector (Np.one_hot (Z.to_nat N) i))
                = true
             /\ Np.argmax (Vector (Np.one_hot (Z.to_nat N) i)) = Return i).
Proof.
  split.
  - intros H. unfold __init__, bind, lift_outcome, Np.eye.
    rewrite refused_square.
    destruct (Z.leb_spec 0 N); destruct (Z.ltb_spec N 1073741824);
      try reflexivity; lia.
  - intros H. eexists. split; [now apply init_eval|].
    cbn [world_size states].
    split; [reflexivity|]. split; [now rewrite length_map, length_seq|].
    intros i Hi. split; [now apply nth_error_map_seq|].
    pose proof (one_hot_valid (Z.to_nat N) i Hi) as Hv.
    split; [exact Hv|]. simpl in Hv. apply andb_true_iff in Hv as [_ Hv].
    rewrite (argmax_one_hot _ Hv). now rewrite one_hot_index.
Qed.

Lemma init_outcome_witness :
  __init__ quarters (-2) 5 = (Raise ValueError, 5)
  /\ __init__ quarters 9223372036854775808 5 = (Raise ValueError, 5)
  /\ exists m,
       __init__ quarters 3 5 = (Return m, 14)
       /\ nth_error (states m) 2 = Some [0; 0; 1]%Q.
Proof.
  split; [|split].
  - apply (proj1 (init_outcome quarters (-2) 5)). lia.
  - apply (proj1 (init_outcome quarters 9223372036854775808 5)). lia.
  - destruct (proj2 (init_outcome quarters 3 5)) as (m & E & _ & _ & H); [lia|].
    exists m. split; [exact E|]. apply (H 2). simpl. lia.
Defined.

(** ** Single steps *)

Lemma map_Fin_inj (q q' : list Q) : map Fin q = map Fin q' -> q = q'.
Proof.
  revert q'. induction q as [|a t IH]; intros [|b t'] H; simpl in H;
    try discriminate; [reflexivity|].
  inversion H. subst. f_equal. now apply IH.
Qed.




(** ** Rows that are not distributions, inputs that are not arrays *)

(** [choice] refuses a row with an entry that is not finite, before
    drawing. *)
Lemma choice_not_finite (U : nat -> Q) (p : list float64) (pos : nat) :
  Np.finite p = None -> choice U (length p) p pos = (Raise ValueError, pos).
Proof.
  intros H. unfold choice.
  destruct (Nat.eqb (length p) 0); [reflexivity|].
  rewrite Nat.eqb_refl, H. reflexivity.
Qed.

Lemma sum_all_zero (l : list Q) :
  (forall x, In x l -> (x == 0)%Q) -> (Np.sum l == 0)%Q.
Proof.
  unfold Np.sum. induction l as [|y t IH]; simpl; intros H; [reflexivity|].
  rewrite (H y) by now left. rewrite IH by (intros x Hx; apply H; now right).
  reflexivity.
Qed.

Lemma nan_row (d : list Q) (s : Q) :
  d <> [] ->
  (forall x, In x d -> (x == 0)%Q) ->
  (s == 0)%Q ->
  Np.finite (map (fun x => Np.truediv x s) d) = None.
Proof.
  destruct d as [|x t]; [congruence|]. intros _ Hz Hs. simpl.
  unfold Np.truediv. apply Qeq_bool_iff in Hs. rewrite Hs.
  assert (H0 : Qeq_bool x 0 = true).
  { apply Qeq_bool_iff. apply Hz. now left. }
  now rewrite H0.
Qed.

Lemma run_simulation_first_step_raises (U : nat -> Q) (s : ndarray) (k : Z)
  (w w' : world) (e : exn) :
  (1 <= k)%Z ->
  sample_next_state U s w = (Raise e, w') ->
  run_simulation U s k w = (Raise e, w').
Proof.
  intros Hk H. unfold run_simulation.
  destruct (Z.to_nat k) as [|n] eqn:E; [lia|].
  simpl. unfold bind. now rewrite H.
Qed.

(** X10: when the variates drawn for row i of the matrix are all zero
    (and [world_size] is below 2^30, so that NumPy accepts the arrays),
    construction still returns a model, and state i of that model cannot be
    left: every step from its one-hot vector raises [ValueError] without
    drawing, and so does every rollout of at least one step from it. *)
Theorem zero_row_state_unusable (U : nat -> Q) (N : Z) (pos i : nat) :
  (N < 1073741824)%Z ->
  i < Z.to_nat N ->
  (forall j, j < Z.to_nat N -> (U (pos + i * Z.to_nat N + j)%nat == 0)%Q) ->
  exists m,
    __init__ U N pos = (Return m, pos + Z.to_nat N * Z.to_nat N)
    /\ forall U' p,
         let w := {| self := m; rng := p |} in
         sample_next_state U' (Vector (Np.one_hot (Z.to_nat N) i)) w
         = (Raise ValueError, w)
         /\ forall k,
              (1 <= k)%Z ->
              run_simulation U' (Vector (Np.one_hot (Z.to_nat N) i)) k w
              = (Raise ValueError, w).
Proof.
  intros HN Hi Hz. eexists. split; [apply init_eval; lia|].
  set (n := Z.to_nat N) in *.
  intros U' p w.
  assert (Hstep : sample_next_state U' (Vector (Np.one_hot n i)) w
                  = (Raise ValueError, w)).
  { pose proof (one_hot_valid n i Hi) as Hv. simpl in Hv.
    apply andb_true_iff in Hv as [_ Hv].
    rewrite sample_next_state_unfold, (argmax_one_hot _ Hv), one_hot_index
      by exact Hi.
    unfold sample_from_row, bind, get_self, lift_outcome, with_rng, Np.getitem.
    cbn [self w transition_matrix rng].
    set (d := drawn_row U pos n i).
    assert (Hrow : nth_error
                     (map (fun row => map (fun x => Np.truediv x (Np.sum row))
                                          row)
                          (map (drawn_row U pos n) (seq 0 n))) i
                   = Some (map (fun x => Np.truediv x (Np.sum d)) d)).
    { rewrite map_map. now rewrite (nth_error_map_seq _ n i Hi). }
    rewrite Hrow.
    assert (Hd : forall x, In x d -> (x == 0)%Q).
    { intros x Hx. unfold d, drawn_row in Hx.
      apply in_map_iff in Hx as (j & <- & Hj). apply in_seq in Hj.
      apply Hz. lia. }
    assert (Hne : d <> []).
    { unfold d, drawn_row. destruct n; [lia|discriminate]. }
    pose proof (nan_row d (Np.sum d) Hne Hd (sum_all_zero d Hd)) as Hnan.
    rewrite (choice_not_finite U' _ p Hnan). reflexivity. }
  split; [exact Hstep|].
  intros k Hk. now apply run_simulation_first_step_raises.
Qed.

Lemma zero_row_state_unusable_witness :
  exists m,
    __init__ zero_start 2 0 = (Return m, 4)
    /\ run_simulation quarters (Vector (Np.one_hot 2 1)) 3
         {| self := m; rng := 4 |}
       = (Raise ValueError, {| self := m; rng := 4 |}).
Proof.
  destruct (zero_row_state_unusable zero_start 2 0 1) as (m & E & H).
  - lia.
  - simpl. lia.
  - intros j Hj. simpl in Hj.
    destruct j as [|[|j]]; [reflexivity|reflexivity|lia].
  - exists m. split; [exact E|].
    apply (proj2 (H quarters 4) 3%Z). lia.
Defined.

(** X11: with a plain number as initial state, a rollout of at least one
    step on a well-formed model of N >= 1 states draws one variate and then
    raises [IndexError]; it returns no trajectory. *)
Theorem scalar_initial_state_rollout (U : nat -> Q) (N : nat)
  (m : GenerativeModel) (pos : nat) (x : Q) (k : Z) :
  stochastic N (transition_matrix m) = true ->
  1 <= N ->
  (1 <= k)%Z ->
  run_simulation U (Scalar x) k {| self := m; rng := pos |}
  = (Raise IndexError, {| self := m; rng := S pos |}).
Proof.
  intros Hm HN Hk. apply run_simulation_first_step_raises; [exact Hk|].
  destruct (stochastic_row_at N _ 0 Hm HN) as (q & Hrow & Hlq & Hq & Hs).
  assert (Hne : q <> []) by (destruct q; simpl in *; [lia|discriminate]).
  rewrite sample_next_state_unfold. cbn [Np.argmax].
  unfold sample_from_row, bind, get_self, lift_outcome, with_rng, Np.getitem.
  cbn [self rng]. rewrite Hrow, length_map.
  rewrite (choice_distribution U q pos Hne Hq Hs). reflexivity.
Qed.

Lemma scalar_initial_state_rollout_witness :
  run_simulation quarters (Scalar 2) 10 {| self := chain3; rng := 0 |}
  = (Raise IndexError, {| self := chain3; rng := 1 |}).
Proof.
  apply (scalar_initial_state_rollout quarters 3 chain3 0 2 10);
    [reflexivity|lia|lia].
Defined.

(** ** Rollouts *)

(** The trajectory accumulated so far does not influence the rollout: it is
    only extended. *)
Lemma run_simulation_loop_accumulator (U : nat -> Q) (n : nat) :
  forall (cs : ndarray) (traj : list ndarray) (w : world),
    run_simulation_loop U n cs traj w
    = match run_simulation_loop U n cs [] w with
      | (Return tail, w') => (Return (traj ++ tail), w')
      | (Raise e, w') => (Raise e, w')
      end.
Proof.
  induction n as [|n IH]; intros cs traj w; simpl.
  - unfold ret. now rewrite app_nil_r.
  - unfold bind. destruct (sample_next_state U cs w) as [[cs'|e] w1];
      [|reflexivity].
    rewrite (IH cs' (traj ++ [cs']) w1), (IH cs' [cs'] w1).
    destruct (run_simulation_loop U n cs' [] w1) as [[tail|e] w2];
      [|reflexivity].
    now rewrite <- app_assoc.
Qed.

Lemma last_cons_default {A : Type} (a d : A) (l : list A) :
  last (a :: l) d = last l a.
Proof.
  revert a d. induction l as [|b t IH]; intros a d; [reflexivity|].
  change (last (b :: t) d = last (b :: t) a).
  now rewrite (IH b d), (IH b a).
Qed.

(** A rollout of [n1 + n2] iterations is one of [n1] iterations followed by
    one of [n2] from the state the first one ended in. *)
Lemma run_simulation_loop_split (U : nat -> Q) (n1 n2 : nat) :
  forall (cs : ndarray) (tail1 : list ndarray) (w w1 : world),
    run_simulation_loop U n1 cs [] w = (Return tail1, w1) ->
    run_simulation_loop U (n1 + n2) cs [] w
    = match run_simulation_loop U n2 (last tail1 cs) [] w1 with
      | (Return tail2, w2) => (Return (tail1 ++ tail2), w2)
      | (Raise e, w2) => (Raise e, w2)
      end.
Proof.
  induction n1 as [|n1 IH]; intros cs tail1 w w1 H.
  - simpl in H. unfold ret in H. inversion H. subst. simpl.
    now destruct (run_simulation_loop U n2 cs [] w1) as [[tail2|e] w2].
  - simpl in H. simpl. unfold bind in *.
    destruct (sample_next_state U cs w) as [[cs'|e] w'];
      [|discriminate].
    rewrite run_simulation_loop_accumulator in H.
    destruct (run_simulation_loop U n1 cs' [] w') as [[tl|e] w1'] eqn:E;
      [|discriminate].
    inversion H. subst. clear H.
    rewrite run_simulation_loop_accumulator, (IH cs' tl w' w1 E).
    simpl app. rewrite last_cons_default.
    now destruct (run_simulation_loop U n2 (last tl cs') [] w1)
      as [[tail2|e] w2].
Qed.

Lemma run_simulation_as_loop (U : nat -> Q) (s0 : ndarray) (k : Z) (w : world) :
  run_simulation U s0 k w
  = match run_simulation_loop U (Z.to_nat k) s0 [] w with
    | (Return tail, w') => (Return (s0 :: tail), w')
    | (Raise e, w') => (Raise e, w')
    end.
Proof.
  unfold run_simulation. now rewrite run_simulation_loop_accumulator.
Qed.

(** X6: rollouts compose.  When a rollout of k1 steps from [s0] returns the
    trajectory [t1], a rollout of k1 + k2 steps from [s0] in the same world
    behaves as a rollout of k2 steps from the last state of [t1] in the
    world the first one left: it returns [t1] followed by the new states of
    the second trajectory, or raises what the second rollout raises. *)
Theorem run_simulation_compose (U : nat -> Q) (s0 : ndarray) (k1 k2 : Z)
  (w w1 : world) (t1 : list ndarray) :
  (0 <= k1)%Z ->
  (0 <= k2)%Z ->
  run_simulation U s0 k1 w = (Return t1, w1) ->
  run_simulation U s0 (k1 + k2) w
  = match run_simulation U (last t1 s0) k2 w1 with
    | (Return t2, w2) => (Return (t1 ++ tl t2), w2)
    | (Raise e, w2) => (Raise e, w2)
    end.
Proof.
  intros H1 H2 H. rewrite run_simulation_as_loop in H.
  destruct (run_simulation_loop U (Z.to_nat k1) s0 [] w) as [[tail1|e] w1']
    eqn:E; [|discriminate].
  inversion H. subst. clear H.
  rewrite !run_simulation_as_loop, Z2Nat.inj_add by assumption.
  rewrite (run_simulation_loop_split U (Z.to_nat k1) (Z.to_nat k2)
             s0 tail1 w w1 E).
  rewrite last_cons_default.
  now destruct (run_simulation_loop U (Z.to_nat k2) (last tail1 s0) [] w1)
    as [[tail2|e] w2].
Qed.

Lemma run_simulation_compose_witness :
  run_simulation quarters (Vector [1; 0; 0]%Q) (2 + 3)
    {| self := chain3; rng := 0 |}
  = match run_simulation quarters
            (last [Vector [1; 0; 0]; Vector [1; 0; 0]; Vector [1; 0; 0]]%Q
                  (Vector [1; 0; 0]%Q))
            3 {| self := chain3; rng := 2 |} with
    | (Return t2, w2) =>
        (Return ([Vector [1; 0; 0]; Vector [1; 0; 0]; Vector [1; 0; 0]]%Q
                 ++ tl t2), w2)
    | (Raise e, w2) => (Raise e, w2)
    end.
Proof.
  apply (run_simulation_compose quarters (Vector [1; 0; 0]%Q) 2 3
           {| self := chain3; rng := 0 |} {| self := chain3; rng := 2 |});
    [lia|lia|reflexivity].
Defined.

Lemma run_simulation_loop_raise (U : nat -> Q) (n : nat) :
  forall (cs : ndarray) (w w' : world) (e : exn),
    run_simulation_loop U n cs [] w = (Raise e, w') ->
    exists i tail wi,
      i < n
      /\ run_simulation_loop U i cs [] w = (Return tail, wi)
      /\ sample_next_state U (last tail cs) wi = (Raise e, w').
Proof.
  induction n as [|n IH]; intros cs w w' e H; simpl in H.
  - discriminate.
  - unfold bind in H.
    destruct (sample_next_state U cs w) as [[cs'|e0] w1] eqn:E.
    + rewrite run_simulation_loop_accumulator in H.
      destruct (run_simulation_loop U n cs' [] w1) as [[tl|e1] w2] eqn:E1;
        [discriminate|].
      inversion H. subst.
      destruct (IH cs' w1 w' e E1) as (i & tail & wi & Hi & Hrun & Hstep).
      exists (S i), (cs' :: tail), wi. split; [lia|]. split.
      * simpl. unfold bind. rewrite E, run_simulation_loop_accumulator, Hrun.
        reflexivity.
      * now rewrite last_cons_default.
    + inversion H. subst. exists 0, [], w. split; [lia|]. split; [reflexivity|].
      exact E.
Qed.

(** X7: a rollout that raises has not failed as a whole: a shorter rollout
    from the same world returns, and the exception and the world left are
    those of the single step from the last state of that shorter
    trajectory. *)
Theorem run_simulation_first_failure (U : nat -> Q) (s0 : ndarray) (k : Z)
  (w w' : world) (e : exn) :
  run_simulation U s0 k w = (Raise e, w') ->
  exists i t wi,
    (0 <= i < k)%Z
    /\ run_simulation U s0 i w = (Return t, wi)
    /\ Z.of_nat (length t) = (i + 1)%Z
    /\ sample_next_state U (last t s0) wi = (Raise e, w').
Proof.
  intros H. rewrite run_simulation_as_loop in H.
  destruct (run_simulation_loop U (Z.to_nat k) s0 [] w) as [[tl|e0] w0] eqn:E;
    [discriminate|].
  inversion H. subst.
  destruct (run_simulation_loop_raise U (Z.to_nat k) s0 w w' e E)
    as (i & tail & wi & Hi & Hrun & Hstep).
  exists (Z.of_nat i), (s0 :: tail), wi. split; [lia|]. split.
  - rewrite run_simulation_as_loop, Nat2Z.id, Hrun. reflexivity.
  - split.
    + destruct (run_simulation_loop_return U i s0 [] tail w wi Hrun)
        as (tail' & Ht & Hl & _). simpl in Ht. subst tail'.
      simpl length. lia.
    + now rewrite last_cons_default.
Qed.

Lemma run_simulation_first_failure_witness :
  exists i t wi,
    (0 <= i < 5)%Z
    /\ run_simulation quarters (Vector [1; 0]%Q) i
         {| self := chain3; rng := 0 |} = (Return t, wi)
    /\ Z.of_nat (length t) = (i + 1)%Z
    /\ sample_next_state quarters (last t (Vector [1; 0]%Q)) wi
       = (Raise IndexError, {| self := chain3; rng := 4 |}).
Proof.
  apply (run_simulation_first_failure quarters (Vector [1; 0]%Q) 5
           {| self := chain3; rng := 0 |}).
  reflexivity.
Defined.

(** X8: a step never draws more than one variate and a rollout of k steps
    never more than k, whatever their outcome; the generator is never moved
    back; and a rollout that returns has drawn exactly k variates. *)
Theorem draws_bounded (U : nat -> Q) (s : ndarray) (k : Z) (w : world) :
  (rng w <= rng (snd (sample_next_state U s w)) <= S (rng w))
  /\ (rng w <= rng (snd (run_simulation U s k w)) <= rng w + Z.to_nat k)
  /\ forall t, fst (run_simulation U s k w) = Return t ->
               rng (snd (run_simulation U s k w)) = rng w + Z.to_nat k.
Proof.
  split; [|split].
  - destruct (sample_next_state_frame U s w) as (_ & [H|H] & _); lia.
  - unfold run_simulation. generalize [s] as traj. generalize s as cs.
    revert w. induction (Z.to_nat k) as [|n IH]; intros w cs traj; simpl.
    + lia.
    + unfold bind.
      destruct (sample_next_state_frame U cs w) as (_ & Hr & _).
      destruct (sample_next_state U cs w) as [[cs'|e] w1]; simpl in Hr.
      * specialize (IH w1 cs' (traj ++ [cs'])). lia.
      * simpl. lia.
  - intros t Ht.
    destruct (run_simulation U s k w) as [r w'] eqn:E. simpl in Ht. subst r.
    destruct (run_simulation_loop_return U (Z.to_nat k) s [s] t w w' E)
      as (_ & _ & _ & -> & _).
    reflexivity.
Qed.

Lemma draws_bounded_witness :
  rng (snd (run_simulation quarters (Vector [1; 0; 0]%Q) 4
              {| self := chain3; rng := 3 |}))
  = 3 + Z.to_nat 4.
Proof.
  eapply (proj2 (proj2 (draws_bounded quarters (Vector [1; 0; 0]%Q) 4
                          {| self := chain3; rng := 3 |}))).
  reflexivity.
Defined.

(** From a state whose row gives probability 1 to the state itself the step
    returns that state. *)
Lemma absorbing_step (U : nat -> Q) (N : nat) (m : GenerativeModel)
  (pos i : nat) (q : list Q) (x : Q) :
  stochastic N (transition_matrix m) = true ->
  unit_interval U ->
  nth_error (transition_matrix m) i = Some (map Fin q) ->
  nth_error q i = Some x ->
  (x == 1)%Q ->
  i < N
  /\ sample_next_state U (Vector (Np.one_hot N i)) {| self := m; rng := pos |}
     = (Return (Vector (Np.one_hot N i)), {| self := m; rng := S pos |}).
Proof.
  intros Hm HU Hrow Hx H1.
  assert (Hi : i < N).
  { unfold stochastic in Hm. apply andb_true_iff in Hm as [Hl _].
    apply Nat.eqb_eq in Hl. rewrite <- Hl. apply nth_error_Some. congruence. }
  split; [exact Hi|].
  pose proof (one_hot_valid N i Hi) as Hv.
  destruct (sample_next_state_valid U N m pos (Np.one_hot N i) Hm Hv
              (proj2 (HU pos))) as (q' & Hrow' & Hlq & Hq & Hs & _ & E).
  rewrite one_hot_index in Hrow' by exact Hi.
  rewrite Hrow in Hrow'. inversion Hrow' as [Hqq].
  apply map_Fin_inj in Hqq. subst q'.
  assert (Hne : q <> []) by (destruct q; simpl in *; [lia|discriminate]).
  assert (Hp : pick q (U pos) = i).
  { apply (pick_interval q (U pos) i Hne Hq Hs (proj1 (HU pos)));
      [rewrite Hlq; exact Hi|].
    pose proof (prefix_sum_step q i x Hx).
    pose proof (prefix_sum_nonneg q i Hq).
    pose proof (prefix_sum_le_sum q (S i) Hq).
    pose proof (proj2 (HU pos)). pose proof (proj1 (HU pos)).
    split; lra. }
  now rewrite E, Hp.
Qed.

(** X5: a state whose row of a well-formed model stores probability 1 for
    the state itself is absorbing: every rollout from it returns the
    trajectory that repeats it, after drawing one variate per step. *)
Theorem absorbing_state_constant (U : nat -> Q) (N : nat)
  (m : GenerativeModel) (i : nat) (q : list Q) (x : Q) :
  stochastic N (transition_matrix m) = true ->
  unit_interval U ->
  nth_error (transition_matrix m) i = Some (map Fin q) ->
  nth_error q i = Some x ->
  (x == 1)%Q ->
  forall k pos,
    run_simulation U (Vector (Np.one_hot N i)) k {| self := m; rng := pos |}
    = (Return (repeat (Vector (Np.one_hot N i)) (S (Z.to_nat k))),
       {| self := m; rng := pos + Z.to_nat k |}).
Proof.
  intros Hm HU Hrow Hx H1 k pos.
  rewrite run_simulation_as_loop.
  set (s := Vector (Np.one_hot N i)).
  assert (Hloop : forall n p,
             run_simulation_loop U n s [] {| self := m; rng := p |}
             = (Return (repeat s n), {| self := m; rng := p + n |})).
  { induction n as [|n IH]; intros p; simpl.
    - unfold ret. now rewrite Nat.add_0_r.
    - unfold bind.
      destruct (absorbing_step U N m p i q x Hm HU Hrow Hx H1) as [_ E].
      fold s in E. rewrite E, run_simulation_loop_accumulator, IH.
      simpl. do 2 f_equal. lia. }
  now rewrite Hloop.
Qed.

Lemma absorbing_state_constant_witness :
  run_simulation quarters (Vector (Np.one_hot 3 0)) 4
    {| self := sink3; rng := 2 |}
  = (Return (repeat (Vector (Np.one_hot 3 0)) 5),
     {| self := sink3; rng := 6 |}).
Proof.
  apply (absorbing_state_constant quarters 3 sink3 0 [1; 0; 0]%Q 1%Q).
  - reflexivity.
  - exact quarters_unit.
  - reflexivity.
  - reflexivity.
  - reflexivity.
Defined.

(** ** Construction followed by rollouts *)

(** X12: construction and rollout fit together.  For [world_size] N with
    1 <= N < 2^30, variates in [0,1) and no row of variates all zero, every
    row of the
    [states] of the constructed model is accepted as initial state: the
    rollout from it, run after construction, returns num_steps + 1 valid
    states (one for a negative num_steps), and construction and rollout
    together have drawn N * N + num_steps variates. *)
Theorem constructed_model_rollout (U : nat -> Q) (N : Z) (pos i : nat) (k : Z) :
  (1 <= N < 1073741824)%Z ->
  unit_interval U ->
  nonzero_rows U pos (Z.to_nat N) ->
  i < Z.to_nat N ->
  exists m s0 traj,
    __init__ U N pos = (Return m, pos + Z.to_nat N * Z.to_nat N)
    /\ nth_error (states m) i = Some s0
    /\ run_simulation U (Vector s0) k
         {| self := m; rng := pos + Z.to_nat N * Z.to_nat N |}
       = (Return traj,
          {| self := m;
             rng := pos + Z.to_nat N * Z.to_nat N + Z.to_nat k |})
    /\ length traj = S (Z.to_nat k)
    /\ hd_error traj = Some (Vector s0)
    /\ Forall (fun s => valid_state (Z.to_nat N) s = true) traj.
Proof.
  intros HN HU Hnz Hi.
  set (n := Z.to_nat N) in *.
  pose proof (constructed_matrix_stochastic U pos n HU Hnz) as Hm.
  pose proof (one_hot_valid n i Hi) as Hv.
  set (m := {| world_size := N;
               states := map (Np.one_hot n) (seq 0 n);
               transition_matrix :=
                 map (fun row => map (fun x => Np.truediv x (Np.sum row)) row)
                     (map (drawn_row U pos n) (seq 0 n)) |}).
  destruct (run_simulation_loop_valid U n m Hm (fun a => proj2 (HU a))
              (Z.to_nat k) (Vector (Np.one_hot n i))
              [Vector (Np.one_hot n i)] (pos + n * n) Hv)
    as (tail & E & Hl & Hall).
  exists m, (Np.one_hot n i).
  exists ([Vector (Np.one_hot n i)] ++ tail).
  split; [apply init_eval; lia|].
  split; [cbn [states]; now apply nth_error_map_seq|].
  split; [exact E|].
  split; [simpl; now rewrite Hl|].
  split; [reflexivity|].
  simpl. now constructor.
Qed.

Lemma constructed_model_rollout_witness :
  exists m s0 traj,
    __init__ quarters 2 0 = (Return m, 4)
    /\ nth_error (states m) 1 = Some s0
    /\ run_simulation quarters (Vector s0) 5 {| self := m; rng := 4 |}
       = (Return traj, {| self := m; rng := 9 |})
    /\ length traj = 6
    /\ hd_error traj = Some (Vector s0)
    /\ Forall (fun s => valid_state 2 s = true) traj.
Proof.
  apply (constructed_model_rollout quarters 2 0 1 5).
  - lia.
  - exact quarters_unit.
  - intros i Hi. destruct i as [|[|i]]; [exists 1|exists 0|lia];
      (split; [lia|vm_compute; discriminate]).
  - simpl. lia.
Defined.

(** X13: the example usage.  When the 36 variates drawn for the matrix lie
    in [0,1) and no row of them is all zero, the script returns (and
    prints) a trajectory of 11 states that starts with the one-hot vector
    of state 0, all of them valid one-hot vectors of length 6, and it has
    drawn 46 variates. *)
Theorem example_usage_trajectory (U : nat -> Q) (pos : nat) :
  unit_interval U ->
  nonzero_rows U pos 6 ->
  exists traj,
    example_usage U pos = (Return traj, pos + 46)
    /\ length traj = 11
    /\ hd_error traj = Some (Vector [1; 0; 0; 0; 0; 0]%Q)
    /\ Forall (fun s => valid_state 6 s = true) traj.
Proof.
  intros HU Hnz.
  pose proof (constructed_matrix_stochastic U pos 6 HU Hnz) as Hm.
  set (m := {| world_size := 6;
               states := map (Np.one_hot 6) (seq 0 6);
               transition_matrix :=
                 map (fun row => map (fun x => Np.truediv x (Np.sum row)) row)
                     (map (drawn_row U pos 6) (seq 0 6)) |}).
  destruct (run_simulation_loop_valid U 6 m Hm (fun a => proj2 (HU a))
              10 (Vector [1; 0; 0; 0; 0; 0]%Q)
              [Vector [1; 0; 0; 0; 0; 0]%Q] (pos + 36) eq_refl)
    as (tail & E & Hl & Hall).
  assert (Hinit : __init__ U 6 pos = (Return m, pos + 36)).
  { rewrite init_eval by lia. reflexivity. }
  exists ([Vector [1; 0; 0; 0; 0; 0]%Q] ++ tail).
  split.
  - unfold example_usage, bind. rewrite Hinit.
    unfold lift_outcome, call, ret, run_simulation.
    change (Np.zeros 6) with (Return (Vector (repeat 0%Q 6))).
    change (Z.to_nat 10) with 10.
    cbn [Np.setitem repeat Np.set_nth]. rewrite E. cbn [rng]. f_equal. lia.
  - split; [simpl; now rewrite Hl|]. split; [reflexivity|].
    simpl. now constructor.
Qed.

Lemma example_usage_trajectory_witness :
  exists traj,
    example_usage quarters 0 = (Return traj, 46)
    /\ length traj = 11
    /\ hd_error traj = Some (Vector [1; 0; 0; 0; 0; 0]%Q)
    /\ Forall (fun s => valid_state 6 s = true) traj.
Proof.
  apply (example_usage_trajectory quarters 0).
  - exact quarters_unit.
  - intros i Hi.
    do 6 (destruct i as [|i];
          [first [exists 0; split; [lia|vm_compute; discriminate]
                 |exists 1; split; [lia|vm_compute; discriminate]]|]).
    lia.
Defined.

(** X14: a model constructed with [world_size = 0] has no row to sample
    from: on it every step from a non-empty vector raises [IndexError] and
    the step from the empty vector raises [ValueError], both without
    drawing, so every rollout of at least one step raises as well. *)
Theorem empty_model_unusable (U : nat -> Q) (pos : nat) :
  exists m,
    __init__ U 0 pos = (Return m, pos)
    /\ forall U' p v k,
         let w := {| self := m; rng := p |} in
         (1 <= k)%Z ->
         (v <> [] ->
          sample_next_state U' (Vector v) w = (Raise IndexError, w)
          /\ run_simulation U' (Vector v) k w = (Raise IndexError, w))
         /\ (v = [] ->
             sample_next_state U' (Vector v) w = (Raise ValueError, w)
             /\ run_simulation U' (Vector v) k w = (Raise ValueError, w)).
Proof.
  eexists. split.
  { rewrite init_eval by lia. simpl. now rewrite Nat.add_0_r. }
  intros U' p v k w Hk. split.
  - intros Hne.
    assert (E : sample_next_state U' (Vector v) w = (Raise IndexError, w)).
    { destruct (argmax_lt v Hne) as (i & Hi & _).
      rewrite sample_next_state_unfold, Hi.
      unfold sample_from_row, bind, get_self, lift_outcome, Np.getitem.
      cbn [self w transition_matrix]. now destruct i. }
    split; [exact E|]. now apply run_simulation_first_step_raises.
  - intros ->.
    assert (E : sample_next_state U' (Vector []) w = (Raise ValueError, w))
      by reflexivity.
    split; [exact E|]. now apply run_simulation_first_step_raises.
Qed.

Lemma empty_model_unusable_witness :
  exists m,
    __init__ quarters 0 3 = (Return m, 3)
    /\ run_simulation halves (Vector [1]%Q) 2 {| self := m; rng := 3 |}
       = (Raise IndexError, {| self := m; rng := 3 |}).
Proof.
  destruct (empty_model_unusable quarters 3) as (m & E & H).
  exists m. split; [exact E|].
  apply (proj1 (H halves 3 [1]%Q 2%Z ltac:(lia))). discriminate.
Defined.
